(** * PII normalizer: a shallow embedding of [src/Normalizer.ts], [src/hash.ts]
    and [src/types.ts], and the properties of the normalization rule set.

    Strings.  A JavaScript string is modelled as a [string] whose characters
    are the UTF-16 code units U+0000..U+00FF (the Latin-1 range); on that
    range the host primitives below ([toLowerCase], [trim], the regular
    expression classes [\s] and [\d], the UTF-8 encoder) are the ECMAScript
    ones.  Promises are modelled by their resolved value: every [await] in
    the source is sequential. *)

From Stdlib Require Import ZArith NArith List Bool Ascii String Lia.
Import ListNotations.

Local Open Scope string_scope.

(* ================================================================== *)
(** ** Host string primitives (ECMAScript [String.prototype], RegExp classes) *)

Module JS.

Definition code (c : ascii) : N := N_of_ascii c.

Definition between (lo hi : N) (c : ascii) : bool :=
  (lo <=? code c)%N && (code c <=? hi)%N.

(** [\s] and the characters removed by [trim]: TAB, LF, VT, FF, CR, SP and
    NBSP are the WhiteSpace and LineTerminator code units below U+0100. *)
Definition isWhiteSpace (c : ascii) : bool :=
  between 9 13 c || (code c =? 32)%N || (code c =? 160)%N.

(** [\d] is [0-9]. *)
Definition isDigit (c : ascii) : bool := between 48 57 c.

(** Simple lower-case mapping: A-Z and the Latin-1 capitals U+00C0..U+00DE
    (U+00D7, the multiplication sign, apart) move up by 32. *)
Definition isUpper (c : ascii) : bool :=
  between 65 90 c || (between 192 222 c && negb (code c =? 215)%N).

Definition lowerChar (c : ascii) : ascii :=
  if isUpper c then ascii_of_N (code c + 32) else c.

Fixpoint toLowerCase (s : string) : string :=
  match s with
  | EmptyString => EmptyString
  | String c r => String (lowerChar c) (toLowerCase r)
  end.

Fixpoint trimStart (s : string) : string :=
  match s with
  | EmptyString => EmptyString
  | String c r => if isWhiteSpace c then trimStart r else s
  end.

Fixpoint trimEnd (s : string) : string :=
  match s with
  | EmptyString => EmptyString
  | String c r =>
      match trimEnd r with
      | EmptyString => if isWhiteSpace c then EmptyString else String c EmptyString
      | t => String c t
      end
  end.

Definition trim (s : string) : string := trimEnd (trimStart s).

(** [s.replace(/[cls]/g, '')] for a character class: the characters that
    match are deleted, the others kept in order. *)
Fixpoint removeAll (cls : ascii -> bool) (s : string) : string :=
  match s with
  | EmptyString => EmptyString
  | String c r => if cls c then removeAll cls r else String c (removeAll cls r)
  end.

(** [s.replace(/\s+/g, rep)]: every maximal run of white space becomes
    [rep].  [inRun] tells that the previous character belonged to the run
    being replaced. *)
Fixpoint replaceRuns (rep : string) (inRun : bool) (s : string) : string :=
  match s with
  | EmptyString => EmptyString
  | String c r =>
      if isWhiteSpace c
      then (if inRun then replaceRuns rep true r
            else rep ++ replaceRuns rep true r)
      else String c (replaceRuns rep false r)
  end.

Definition replaceWhiteSpaceRuns (rep s : string) : string :=
  replaceRuns rep false s.

Fixpoint includesChar (x : ascii) (s : string) : bool :=
  match s with
  | EmptyString => false
  | String c r => Ascii.eqb c x || includesChar x r
  end.

Definition startsWithChar (x : ascii) (s : string) : bool :=
  match s with
  | String c _ => Ascii.eqb c x
  | EmptyString => false
  end.

(** [s.slice(1)] *)
Definition slice1 (s : string) : string :=
  match s with
  | String _ r => r
  | EmptyString => EmptyString
  end.

Fixpoint every (p : ascii -> bool) (s : string) : bool :=
  match s with
  | EmptyString => true
  | String c r => p c && every p r
  end.

(** Truthiness of a string value: the empty string is falsy. *)
Definition truthy (s : string) : bool :=
  match s with
  | EmptyString => false
  | String _ _ => true
  end.

End JS.

(* ================================================================== *)
(** ** [types.ts] *)

(** [NormalizerOptions]: both members optional. *)
Record NormalizerOptions : Type := mkNormalizerOptions {
  opt_defaultCountryCode : option string;
  opt_hashAddressFields : option bool
}.

(** [Required<NormalizerOptions>], the private [options] member, which is
    all the state a [Normalizer] instance has. *)
Record Normalizer : Type := mkNormalizer {
  defaultCountryCode : string;
  hashAddressFields : bool
}.

(** [a ?? b] *)
Definition nullish {A : Type} (a : option A) (b : A) : A :=
  match a with
  | Some v => v
  | None => b
  end.

Definition constructor (options : NormalizerOptions) : Normalizer :=
  {| defaultCountryCode := nullish (opt_defaultCountryCode options) "1";
     hashAddressFields := nullish (opt_hashAddressFields options) false |}.

(** [new Normalizer()] *)
Definition defaultNormalizer : Normalizer :=
  constructor {| opt_defaultCountryCode := None; opt_hashAddressFields := None |}.

(* ================================================================== *)
(** ** [Normalizer.ts]: normalization methods

    Every method starts with [if (!x || typeof x !== 'string') return null];
    the parameter is typed [string], and on a string the guard is the
    emptiness test.  [null] is [None]. *)

Definition normalizeEmail (email : string) : option string :=
  if negb (JS.truthy email) then None
  else
    let normalized := JS.trim (JS.toLowerCase email) in
    if negb (JS.includesChar "@" normalized) || (String.length normalized <? 5)%nat
    then None
    else Some normalized.

(** The character class of [/[^\d+]/g]: what is neither a digit nor [+]. *)
Definition notDigitOrPlus (c : ascii) : bool :=
  negb (JS.isDigit c || Ascii.eqb c "+").

(** [let digits = phone.replace(/[^\d+]/g, ''); if (digits.startsWith('+'))
    digits = digits.slice(1);] *)
Definition strippedPhone (phone : string) : string :=
  let digits := JS.removeAll notDigitOrPlus phone in
  if JS.startsWithChar "+" digits then JS.slice1 digits else digits.

Definition normalizePhone (this : Normalizer) (phone : string)
    (countryCode : option string) : option string :=
  if negb (JS.truthy phone) then None
  else
    let code := nullish countryCode (defaultCountryCode this) in
    let digits := JS.removeAll notDigitOrPlus phone in
    let digits := if JS.startsWithChar "+" digits then JS.slice1 digits else digits in
    if (String.length digits <? 10)%nat then None
    else
      let digits := if (String.length digits =? 10)%nat then code ++ digits else digits in
      Some ("+" ++ digits).

Definition normalizeName (name : string) : option string :=
  if negb (JS.truthy name) then None
  else
    let normalized :=
      JS.replaceWhiteSpaceRuns " " (JS.trim (JS.toLowerCase name)) in
    if (String.length normalized =? 0)%nat then None else Some normalized.

Definition normalizeGender (gender : string) : option string :=
  if negb (JS.truthy gender) then None
  else
    let g := JS.trim (JS.toLowerCase gender) in
    if String.eqb g "m" || String.eqb g "male" then Some "m"
    else if String.eqb g "f" || String.eqb g "female" then Some "f"
    else None.

(** The character class of [/[-\/\.]/g]. *)
Definition isDateSeparator (c : ascii) : bool :=
  Ascii.eqb c "-" || Ascii.eqb c "/" || Ascii.eqb c ".".

(** [/^\d{8}$/.test(s)] *)
Definition isEightDigits (s : string) : bool :=
  (String.length s =? 8)%nat && JS.every JS.isDigit s.

Definition normalizeDateOfBirth (dob : string) : option string :=
  if negb (JS.truthy dob) then None
  else
    let cleaned := JS.removeAll isDateSeparator dob in
    if negb (isEightDigits cleaned) then None else Some cleaned.

Definition normalizeCity (city : string) : option string :=
  if negb (JS.truthy city) then None
  else
    let normalized := JS.trim (JS.toLowerCase city) in
    if (String.length normalized =? 0)%nat then None else Some normalized.

Definition normalizeState (state : string) : option string :=
  if negb (JS.truthy state) then None
  else
    let normalized := JS.trim (JS.toLowerCase state) in
    if (String.length normalized =? 0)%nat then None else Some normalized.

Definition normalizeZipCode (zip : string) : option string :=
  if negb (JS.truthy zip) then None
  else
    let normalized :=
      JS.replaceWhiteSpaceRuns "" (JS.trim (JS.toLowerCase zip)) in
    if (String.length normalized =? 0)%nat then None else Some normalized.

Definition normalizeCountry (country : string) : option string :=
  if negb (JS.truthy country) then None
  else
    let normalized := JS.trim (JS.toLowerCase country) in
    if negb (String.length normalized =? 2)%nat then None else Some normalized.

(* ================================================================== *)
(** ** The host digest: [crypto.subtle.digest('SHA-256', data)]

    SHA-256 as FIPS 180-4 defines it, on bytes and 32-bit words carried by
    [Z], the wrap-around written out. *)

Module SHA256.

Local Open Scope Z_scope.

Definition w32 (x : Z) : Z := x mod 2 ^ 32.

Definition add32 (a b : Z) : Z := w32 (a + b).

Definition rotr (n x : Z) : Z :=
  w32 (Z.lor (Z.shiftr x n) (Z.shiftl x (32 - n))).

Definition shr (n x : Z) : Z := Z.shiftr x n.

Definition not32 (x : Z) : Z := Z.lxor x 0xffffffff.

Definition Ch (x y z : Z) : Z := Z.lxor (Z.land x y) (Z.land (not32 x) z).

Definition Maj (x y z : Z) : Z :=
  Z.lxor (Z.lxor (Z.land x y) (Z.land x z)) (Z.land y z).

Definition bigSigma0 (x : Z) : Z :=
  Z.lxor (Z.lxor (rotr 2 x) (rotr 13 x)) (rotr 22 x).

Definition bigSigma1 (x : Z) : Z :=
  Z.lxor (Z.lxor (rotr 6 x) (rotr 11 x)) (rotr 25 x).

Definition smallSigma0 (x : Z) : Z :=
  Z.lxor (Z.lxor (rotr 7 x) (rotr 18 x)) (shr 3 x).

Definition smallSigma1 (x : Z) : Z :=
  Z.lxor (Z.lxor (rotr 17 x) (rotr 19 x)) (shr 10 x).

(** The constants are the first 32 bits of the fractional parts of the
    square roots (initial hash value) and cube roots (round constants) of
    the first primes. *)
Definition isPrime (n : nat) : bool :=
  forallb (fun d => negb (n mod d =? 0)%nat) (seq 2 (n - 2)).

Definition primes : list Z :=
  map Z.of_nat (firstn 64 (filter isPrime (seq 2 400))).

(** The integer cube root, bit by bit from the top. *)
Definition icbrt (n : Z) : Z :=
  fold_left (fun r b => let r' := r + 2 ^ Z.of_nat b in
                        if r' ^ 3 <=? n then r' else r)
            (rev (seq 0 40)) 0.

Definition fracSqrt (p : Z) : Z := w32 (Z.sqrt (p * 2 ^ 64)).

Definition fracCbrt (p : Z) : Z := w32 (icbrt (p * 2 ^ 96)).

Definition K : list Z := Eval vm_compute in map fracCbrt primes.

(** The eight working variables / the intermediate hash value. *)
Record state : Type := mkState {
  sa : Z; sb : Z; sc : Z; sd : Z; se : Z; sf : Z; sg : Z; sh : Z
}.

Definition H0 : state :=
  Eval vm_compute in
    mkState (fracSqrt 2) (fracSqrt 3) (fracSqrt 5) (fracSqrt 7)
            (fracSqrt 11) (fracSqrt 13) (fracSqrt 17) (fracSqrt 19).

(** Padding: the bit 1, then zero bits up to 56 mod 64 bytes, then the
    message length in bits as a big-endian 64-bit integer. *)
Definition be64 (n : Z) : list Z :=
  map (fun i => Z.shiftr n (8 * i) mod 256) [7; 6; 5; 4; 3; 2; 1; 0].

Definition pad (msg : list Z) : list Z :=
  let len := Z.of_nat (List.length msg) in
  msg ++ [0x80] ++ repeat 0 (Z.to_nat ((55 - len) mod 64)) ++ be64 (8 * len).

Fixpoint chunks (fuel : nat) (l : list Z) : list (list Z) :=
  match fuel with
  | O => []
  | S f =>
      match l with
      | [] => []
      | _ => firstn 64 l :: chunks f (skipn 64 l)
      end
  end.

(** Big-endian 32-bit words of a block. *)
Fixpoint words (fuel : nat) (l : list Z) : list Z :=
  match fuel with
  | O => []
  | S f =>
      match l with
      | b0 :: b1 :: b2 :: b3 :: r =>
          (b0 * 2 ^ 24 + b1 * 2 ^ 16 + b2 * 2 ^ 8 + b3) :: words f r
      | _ => []
      end
  end.

(** Message schedule: [w] holds the sixteen most recent words, oldest
    first. *)
Fixpoint expand (n : nat) (w : list Z) : list Z :=
  match n with
  | O => []
  | S n' =>
      let x :=
        add32 (add32 (smallSigma1 (nth 14 w 0)) (nth 9 w 0))
              (add32 (smallSigma0 (nth 1 w 0)) (nth 0 w 0)) in
      x :: expand n' (tl w ++ [x])
  end.

Definition schedule (block : list Z) : list Z :=
  let w := words 16 block in
  w ++ expand 48 w.

Definition round (s : state) (kw : Z * Z) : state :=
  let t1 :=
    add32 (add32 (add32 (sh s) (bigSigma1 (se s)))
                 (add32 (Ch (se s) (sf s) (sg s)) (fst kw)))
          (snd kw) in
  let t2 := add32 (bigSigma0 (sa s)) (Maj (sa s) (sb s) (sc s)) in
  mkState (add32 t1 t2) (sa s) (sb s) (sc s)
          (add32 (sd s) t1) (se s) (sf s) (sg s).

Definition compress (h : state) (block : list Z) : state :=
  let s := fold_left round (combine K (schedule block)) h in
  mkState (add32 (sa h) (sa s)) (add32 (sb h) (sb s))
          (add32 (sc h) (sc s)) (add32 (sd h) (sd s))
          (add32 (se h) (se s)) (add32 (sf h) (sf s))
          (add32 (sg h) (sg s)) (add32 (sh h) (sh s)).

Definition be32 (w : Z) : list Z :=
  [ Z.shiftr w 24 mod 256; Z.shiftr w 16 mod 256;
    Z.shiftr w 8 mod 256; w mod 256 ].

Definition output (s : state) : list Z :=
  be32 (sa s) ++ be32 (sb s) ++ be32 (sc s) ++ be32 (sd s) ++
  be32 (se s) ++ be32 (sf s) ++ be32 (sg s) ++ be32 (sh s).

(** The 32-byte digest of a byte sequence. *)
Definition digest (data : list Z) : list Z :=
  let p := pad data in
  output (fold_left compress (chunks (List.length p) p) H0).

End SHA256.

(* ================================================================== *)
(** ** [hash.ts] *)

(** [new TextEncoder().encode(input)]: UTF-8, one byte below U+0080 and two
    bytes from U+0080 to U+00FF. *)
Definition encodeChar (c : ascii) : list Z :=
  let n := Z.of_N (JS.code c) in
  if (n <? 128)%Z then [n]
  else [Z.lor 0xC0 (Z.shiftr n 6); Z.lor 0x80 (Z.land n 0x3F)].

Fixpoint encode (input : string) : list Z :=
  match input with
  | EmptyString => []
  | String c r => encodeChar c ++ encode r
  end.

Definition hexDigit (d : Z) : ascii :=
  match String.get (Z.to_nat d) "0123456789abcdef" with
  | Some c => c
  | None => "0"%char
  end.

(** [n.toString(16)] for a non-negative integer. *)
Fixpoint toString16_aux (fuel : nat) (n : Z) (acc : string) : string :=
  match fuel with
  | O => acc
  | S f =>
      let acc' := String (hexDigit (n mod 16)) acc in
      if (n / 16 =? 0)%Z then acc' else toString16_aux f (n / 16) acc'
  end.

Definition toString16 (n : Z) : string :=
  toString16_aux (S (Z.to_nat (Z.log2 n))) n "".

Fixpoint repeatString (n : nat) (c : ascii) : string :=
  match n with
  | O => EmptyString
  | S k => String c (repeatString k c)
  end.

(** [s.padStart(targetLength, c)] for a one-character filler. *)
Definition padStart (targetLength : nat) (c : ascii) (s : string) : string :=
  repeatString (targetLength - String.length s) c ++ s.

(** [hashArray.map((b) => b.toString(16).padStart(2, '0')).join('')] *)
Fixpoint hexOfBytes (hashArray : list Z) : string :=
  match hashArray with
  | [] => EmptyString
  | b :: r => padStart 2 "0" (toString16 b) ++ hexOfBytes r
  end.

Definition sha256 (input : string) : string :=
  let data := encode input in
  let hashArray := SHA256.digest data in
  hexOfBytes hashArray.

(** The character class [[a-f0-9]]. *)
Definition isLowerHex (c : ascii) : bool :=
  JS.between 97 102 c || JS.between 48 57 c.

(** [/^[a-f0-9]{64}$/.test(value)] *)
Definition isSha256 (value : string) : bool :=
  (String.length value =? 64)%nat && JS.every isLowerHex value.

(* ================================================================== *)
(** ** [types.ts]: the records *)

(** The values a [Record<string, unknown>] may hold. *)
#[local] Unset Elimination Schemes.
Inductive unknown : Type :=
| UNull
| UBool (b : bool)
| UNum (z : Z)
| UStr (s : string)
| UArr (items : list unknown)
| UObj (members : list (string * unknown)).
#[local] Set Elimination Schemes.

Record RawUserData : Type := mkRawUserData {
  raw_email : option string;
  raw_phone : option string;
  raw_first_name : option string;
  raw_last_name : option string;
  raw_gender : option string;
  raw_date_of_birth : option string;
  raw_external_id : option string;
  raw_city : option string;
  raw_state : option string;
  raw_zip_code : option string;
  raw_country : option string;
  raw_ip_address : option string;
  raw_user_agent : option string;
  raw_subscription_id : option string;
  raw_lead_id : option string;
  raw_anonymous_id : option string;
  raw_traits : option (list (string * unknown))
}.

(** [{}] *)
Definition emptyRaw : RawUserData :=
  mkRawUserData None None None None None None None None None
                None None None None None None None None.

(** The property names of both interfaces. *)
Module Key.

Inductive t : Type :=
| email | phone | first_name | last_name | gender | date_of_birth
| external_id | city | state | zip_code | country
| ip_address | user_agent | subscription_id | lead_id | anonymous_id
| traits.

Definition eq_dec (a b : t) : {a = b} + {a <> b}.
Proof. decide equality. Defined.

Definition eqb (a b : t) : bool := if eq_dec a b then true else false.

End Key.

Inductive Value : Type :=
| VStr (s : string)
| VObj (o : list (string * unknown)).

(** [NormalizedUserData]: the result object, its own properties in
    insertion order.  A property that was never assigned has no entry. *)
Definition NormalizedUserData : Type := list (Key.t * Value).

Fixpoint get (k : Key.t) (o : NormalizedUserData) : option Value :=
  match o with
  | [] => None
  | (k', v) :: r => if Key.eqb k k' then Some v else get k r
  end.

(** [o.k = v] *)
Fixpoint set (k : Key.t) (v : Value) (o : NormalizedUserData)
    : NormalizedUserData :=
  match o with
  | [] => [(k, v)]
  | (k', v') :: r =>
      if Key.eqb k k' then (k', v) :: r else (k', v') :: set k v r
  end.

(** [Object.keys(o)] *)
Definition keys (o : NormalizedUserData) : list Key.t := map fst o.

(** [raw.k] for the string-valued members. *)
Definition rawString (raw : RawUserData) (k : Key.t) : option string :=
  match k with
  | Key.email => raw_email raw
  | Key.phone => raw_phone raw
  | Key.first_name => raw_first_name raw
  | Key.last_name => raw_last_name raw
  | Key.gender => raw_gender raw
  | Key.date_of_birth => raw_date_of_birth raw
  | Key.external_id => raw_external_id raw
  | Key.city => raw_city raw
  | Key.state => raw_state raw
  | Key.zip_code => raw_zip_code raw
  | Key.country => raw_country raw
  | Key.ip_address => raw_ip_address raw
  | Key.user_agent => raw_user_agent raw
  | Key.subscription_id => raw_subscription_id raw
  | Key.lead_id => raw_lead_id raw
  | Key.anonymous_id => raw_anonymous_id raw
  | Key.traits => None
  end.

(** [raw.k] *)
Definition rawGet (raw : RawUserData) (k : Key.t) : option Value :=
  match k with
  | Key.traits => option_map VObj (raw_traits raw)
  | _ => option_map VStr (rawString raw k)
  end.

(** Truthiness of a property value: a string is truthy unless empty, an
    object always. *)
Definition truthyValue (v : Value) : bool :=
  match v with
  | VStr s => JS.truthy s
  | VObj _ => true
  end.

(** [k] is present in [raw] with a truthy value. *)
Definition truthyPresent (raw : RawUserData) (k : Key.t) : bool :=
  match rawGet raw k with
  | Some v => truthyValue v
  | None => false
  end.

(* ================================================================== *)
(** ** [Normalizer.ts]: hash methods *)

(** [normalized ? sha256(normalized) : null] *)
Definition hashIfTruthy (normalized : option string) : option string :=
  match normalized with
  | Some n => if JS.truthy n then Some (sha256 n) else None
  | None => None
  end.

Definition hashEmail (email : string) : option string :=
  let normalized := normalizeEmail email in
  hashIfTruthy normalized.

Definition hashPhone (this : Normalizer) (phone : string)
    (countryCode : option string) : option string :=
  let normalized := normalizePhone this phone countryCode in
  hashIfTruthy normalized.

Definition hashName (name : string) : option string :=
  let normalized := normalizeName name in
  hashIfTruthy normalized.

Definition hashGender (gender : string) : option string :=
  let normalized := normalizeGender gender in
  hashIfTruthy normalized.

Definition hashDateOfBirth (dob : string) : option string :=
  let normalized := normalizeDateOfBirth dob in
  hashIfTruthy normalized.

Definition hashCity (city : string) : option string :=
  let normalized := normalizeCity city in
  hashIfTruthy normalized.

Definition hashState (state : string) : option string :=
  let normalized := normalizeState state in
  hashIfTruthy normalized.

Definition hashZipCode (zip : string) : option string :=
  let normalized := normalizeZipCode zip in
  hashIfTruthy normalized.

Definition hashCountry (country : string) : option string :=
  let normalized := normalizeCountry country in
  hashIfTruthy normalized.

Definition hashExternalId (externalId : string) : option string :=
  if negb (JS.truthy externalId) then None
  else Some (sha256 (JS.trim externalId)).

(* ================================================================== *)
(** ** [Normalizer.ts]: batch normalization *)

(** [if (raw.k) { body }] for a string-valued property. *)
Definition whenTruthy (x : option string)
    (body : string -> NormalizedUserData -> NormalizedUserData)
    (result : NormalizedUserData) : NormalizedUserData :=
  match x with
  | Some v => if JS.truthy v then body v result else result
  | None => result
  end.

(** [if (raw.k) { body }] for an object-valued property: an object is
    truthy. *)
Definition whenObject (x : option (list (string * unknown)))
    (body : list (string * unknown) -> NormalizedUserData -> NormalizedUserData)
    (result : NormalizedUserData) : NormalizedUserData :=
  match x with
  | Some v => body v result
  | None => result
  end.

(** [if (h) result.k = h;] *)
Definition assignHash (k : Key.t) (h : option string)
    (result : NormalizedUserData) : NormalizedUserData :=
  match h with
  | Some d => if JS.truthy d then set k (VStr d) result else result
  | None => result
  end.

Definition normalize (this : Normalizer) (raw : RawUserData)
    : NormalizedUserData :=
  let result : NormalizedUserData := [] in
  (* Hash contact PII *)
  let result := whenTruthy (raw_email raw) (fun v =>
      assignHash Key.email (hashEmail v)) result in
  let result := whenTruthy (raw_phone raw) (fun v =>
      assignHash Key.phone (hashPhone this v None)) result in
  let result := whenTruthy (raw_first_name raw) (fun v =>
      assignHash Key.first_name (hashName v)) result in
  let result := whenTruthy (raw_last_name raw) (fun v =>
      assignHash Key.last_name (hashName v)) result in
  let result := whenTruthy (raw_gender raw) (fun v =>
      assignHash Key.gender (hashGender v)) result in
  let result := whenTruthy (raw_date_of_birth raw) (fun v =>
      assignHash Key.date_of_birth (hashDateOfBirth v)) result in
  let result := whenTruthy (raw_external_id raw) (fun v =>
      assignHash Key.external_id (hashExternalId v)) result in
  (* Address fields - hash only if configured to do so *)
  let result := whenTruthy (raw_city raw) (fun v result =>
      if hashAddressFields this
      then assignHash Key.city (hashCity v) result
      else set Key.city (VStr v) result) result in
  let result := whenTruthy (raw_state raw) (fun v result =>
      if hashAddressFields this
      then assignHash Key.state (hashState v) result
      else set Key.state (VStr v) result) result in
  let result := whenTruthy (raw_zip_code raw) (fun v result =>
      if hashAddressFields this
      then assignHash Key.zip_code (hashZipCode v) result
      else set Key.zip_code (VStr v) result) result in
  let result := whenTruthy (raw_country raw) (fun v result =>
      if hashAddressFields this
      then assignHash Key.country (hashCountry v) result
      else set Key.country (VStr v) result) result in
  (* Pass through unhashed fields *)
  let result := whenTruthy (raw_ip_address raw) (fun v =>
      set Key.ip_address (VStr v)) result in
  let result := whenTruthy (raw_user_agent raw) (fun v =>
      set Key.user_agent (VStr v)) result in
  let result := whenTruthy (raw_subscription_id raw) (fun v =>
      set Key.subscription_id (VStr v)) result in
  let result := whenTruthy (raw_lead_id raw) (fun v =>
      set Key.lead_id (VStr v)) result in
  let result := whenTruthy (raw_anonymous_id raw) (fun v =>
      set Key.anonymous_id (VStr v)) result in
  let result := whenObject (raw_traits raw) (fun v =>
      set Key.traits (VObj v)) result in
  result.

(* ================================================================== *)
(** ** Descriptions taken from the specification, to compare with the code *)



(** The digits and [+] signs of a string, all other characters removed. *)
Definition digitsAndPlus (s : string) : string :=
  string_of_list_ascii
    (filter (fun c => JS.isDigit c || Ascii.eqb c "+") (list_ascii_of_string s)).


(** The date-of-birth rule as the specification words it: remove hyphen,
    slash and period characters; require exactly 8 remaining characters, all
    decimal digits. *)
Definition normalizeDateOfBirth_spec (dob : string) : option string :=
  let cleaned :=
    filter (fun c => negb (existsb (Ascii.eqb c) ["-"; "/"; "."]%char))
           (list_ascii_of_string dob) in
  if (List.length cleaned =? 8)%nat
     && forallb (fun c => existsb (Ascii.eqb c)
                   ["0"; "1"; "2"; "3"; "4"; "5"; "6"; "7"; "8"; "9"]%char)
                cleaned
  then Some (string_of_list_ascii cleaned)
  else None.

(** The nine field kinds, and the normalizer of each.  Only the phone
    normalizer reads the instance and takes a country-code argument. *)
Inductive FieldKind : Type :=
| FEmail | FPhone | FName | FGender | FDateOfBirth
| FCity | FState | FZipCode | FCountry.

Definition normalizerOf (this : Normalizer) (countryCode : option string)
    (f : FieldKind) : string -> option string :=
  match f with
  | FEmail => normalizeEmail
  | FPhone => fun x => normalizePhone this x countryCode
  | FName => normalizeName
  | FGender => normalizeGender
  | FDateOfBirth => normalizeDateOfBirth
  | FCity => normalizeCity
  | FState => normalizeState
  | FZipCode => normalizeZipCode
  | FCountry => normalizeCountry
  end.

(** A country code that [/[^\d+]/g] leaves whole, or removes whole. *)
Definition plainCode (code : string) : bool :=
  String.eqb (JS.removeAll notDigitOrPlus code) code
  || String.eqb (JS.removeAll notDigitOrPlus code) "".

(** The first and the last character of a string are not white space. *)
Definition startsClean (s : string) : bool :=
  match s with
  | EmptyString => true
  | String c _ => negb (JS.isWhiteSpace c)
  end.

Fixpoint endsClean (s : string) : bool :=
  match s with
  | EmptyString => true
  | String c r =>
      match r with
      | EmptyString => negb (JS.isWhiteSpace c)
      | String _ _ => endsClean r
      end
  end.

(** A raw record with one address member. *)
Definition rawCity (v : string) : RawUserData :=
  mkRawUserData None None None None None None None (Some v) None
                None None None None None None None None.

Definition rawZipCode (v : string) : RawUserData :=
  mkRawUserData None None None None None None None None None
                (Some v) None None None None None None None.

Definition rawCountry (v : string) : RawUserData :=
  mkRawUserData None None None None None None None None None
                None (Some v) None None None None None None.

(** The record of the batch test "should normalize and hash all PII
    fields". *)
Definition rawAllFields : RawUserData :=
  {| raw_email := Some "JOHN@EXAMPLE.COM"; raw_phone := Some "555-123-4567";
     raw_first_name := Some "JOHN"; raw_last_name := Some "DOE";
     raw_gender := Some "male"; raw_date_of_birth := Some "1990-01-15";
     raw_external_id := Some "ext_12345";
     raw_city := Some "San Francisco"; raw_state := Some "CA";
     raw_zip_code := Some "94102"; raw_country := Some "US";
     raw_ip_address := None; raw_user_agent := None;
     raw_subscription_id := None; raw_lead_id := None;
     raw_anonymous_id := None; raw_traits := None |}.

(** [isSha256(result.k)] *)
Definition isDigestAt (result : NormalizedUserData) (k : Key.t) : bool :=
  match get k result with
  | Some (VStr h) => isSha256 h
  | _ => false
  end.

(** [{ email: e, phone: p }] *)
Definition rawEmailPhone (e p : string) : RawUserData :=
  mkRawUserData (Some e) (Some p) None None None None None None None
                None None None None None None None None.

(** [{ first_name: a, last_name: b }] *)
Definition rawNames (a b : string) : RawUserData :=
  mkRawUserData None None (Some a) (Some b) None None None None None
                None None None None None None None None.

(* ================================================================== *)
(** ** The orchestrator as a routing table, and auxiliary predicates *)

(** The value the orchestrator's statement for a property assigns, if it
    assigns one: [hashed] for a statement that hashes, [copied] for one that
    copies the raw value. *)
Definition hashed (x : option string) (h : string -> option string)
    : option Value :=
  match x with
  | Some v =>
      if JS.truthy v
      then match h v with
           | Some d => if JS.truthy d then Some (VStr d) else None
           | None => None
           end
      else None
  | None => None
  end.

Definition copied (x : option string) : option Value :=
  match x with
  | Some v => if JS.truthy v then Some (VStr v) else None
  | None => None
  end.

Definition outputOf (this : Normalizer) (raw : RawUserData) (k : Key.t)
    : option Value :=
  match k with
  | Key.email => hashed (raw_email raw) hashEmail
  | Key.phone => hashed (raw_phone raw) (fun v => hashPhone this v None)
  | Key.first_name => hashed (raw_first_name raw) hashName
  | Key.last_name => hashed (raw_last_name raw) hashName
  | Key.gender => hashed (raw_gender raw) hashGender
  | Key.date_of_birth => hashed (raw_date_of_birth raw) hashDateOfBirth
  | Key.external_id => hashed (raw_external_id raw) hashExternalId
  | Key.city =>
      if hashAddressFields this then hashed (raw_city raw) hashCity
      else copied (raw_city raw)
  | Key.state =>
      if hashAddressFields this then hashed (raw_state raw) hashState
      else copied (raw_state raw)
  | Key.zip_code =>
      if hashAddressFields this then hashed (raw_zip_code raw) hashZipCode
      else copied (raw_zip_code raw)
  | Key.country =>
      if hashAddressFields this then hashed (raw_country raw) hashCountry
      else copied (raw_country raw)
  | Key.ip_address => copied (raw_ip_address raw)
  | Key.user_agent => copied (raw_user_agent raw)
  | Key.subscription_id => copied (raw_subscription_id raw)
  | Key.lead_id => copied (raw_lead_id raw)
  | Key.anonymous_id => copied (raw_anonymous_id raw)
  | Key.traits => option_map VObj (raw_traits raw)
  end.

(** The hash method the orchestrator runs on a property, if it runs one. *)
Definition hashMethodOf (this : Normalizer) (k : Key.t)
    : option (string -> option string) :=
  match k with
  | Key.email => Some hashEmail
  | Key.phone => Some (fun v => hashPhone this v None)
  | Key.first_name | Key.last_name => Some hashName
  | Key.gender => Some hashGender
  | Key.date_of_birth => Some hashDateOfBirth
  | Key.external_id => Some hashExternalId
  | Key.city => if hashAddressFields this then Some hashCity else None
  | Key.state => if hashAddressFields this then Some hashState else None
  | Key.zip_code => if hashAddressFields this then Some hashZipCode else None
  | Key.country => if hashAddressFields this then Some hashCountry else None
  | _ => None
  end.

(** Every white-space character of the string is a single space that
    follows a character which is not white space ([prevWs] tells whether the
    character before the string is white space). *)
Fixpoint singleSpaced (prevWs : bool) (s : string) : bool :=
  match s with
  | EmptyString => true
  | String c r =>
      if JS.isWhiteSpace c
      then negb prevWs && Ascii.eqb c " " && singleSpaced true r
      else singleSpaced false r
  end.

(** A byte of a [Uint8Array]. *)
Definition isByte (b : Z) : Prop := (0 <= b < 256)%Z.

(** Two lower-case hexadecimal characters. *)
Definition isHexPair (s : string) : bool :=
  (String.length s =? 2)%nat && JS.every isLowerHex s.

(* ================================================================== *)
(** ** Tables over the field kinds and the property names *)

(** The hash method of each field kind. *)
Definition hasherOf (this : Normalizer) (countryCode : option string)
    (f : FieldKind) : string -> option string :=
  match f with
  | FEmail => hashEmail
  | FPhone => fun x => hashPhone this x countryCode
  | FName => hashName
  | FGender => hashGender
  | FDateOfBirth => hashDateOfBirth
  | FCity => hashCity
  | FState => hashState
  | FZipCode => hashZipCode
  | FCountry => hashCountry
  end.

(** The field kinds whose normalizer starts with [toLowerCase().trim()]. *)
Definition lowersAndTrims (f : FieldKind) : bool :=
  match f with
  | FPhone | FDateOfBirth => false
  | _ => true
  end.

(** The properties that [normalize] copies, and the four address
    properties with the normalizer of each. *)
Definition isPassthrough (k : Key.t) : bool :=
  match k with
  | Key.ip_address | Key.user_agent | Key.subscription_id | Key.lead_id
  | Key.anonymous_id | Key.traits => true
  | _ => false
  end.

Definition addressNormalizerOf (k : Key.t)
    : option (string -> option string) :=
  match k with
  | Key.city => Some normalizeCity
  | Key.state => Some normalizeState
  | Key.zip_code => Some normalizeZipCode
  | Key.country => Some normalizeCountry
  | _ => None
  end.

(** The characters that [/[^\d+]/g] keeps, and those a date of birth may
    hold. *)
Definition digitOrPlus (c : ascii) : bool := JS.isDigit c || Ascii.eqb c "+".

Definition digitOrSeparator (c : ascii) : bool :=
  JS.isDigit c || isDateSeparator c.

(** A record with only [email], and one with only [ip_address]. *)
Definition rawEmail (v : string) : RawUserData :=
  mkRawUserData (Some v) None None None None None None None None
                None None None None None None None None.

Definition rawIpAddress (v : string) : RawUserData :=
  mkRawUserData None None None None None None None None None
                None None (Some v) None None None None None.

(** [b.toString(16).padStart(2, '0')], and the byte a two-character string
    is the rendering of, if it is one. *)
Definition hexPairOf (b : Z) : string := padStart 2 "0" (toString16 b).

Definition byteOfHexPair (s : string) : option nat :=
  find (fun n => String.eqb (hexPairOf (Z.of_nat n)) s) (seq 0 256).

(* ================================================================== *)
(** ** The repository's tests, replayed on the embedding *)

(** The repository's unit tests of the normalization methods. *)
Example test_normalizeEmail :
  normalizeEmail "JOHN@EXAMPLE.COM" = Some "john@example.com"
  /\ normalizeEmail "  john@example.com  " = Some "john@example.com"
  /\ normalizeEmail "not-an-email" = None
  /\ normalizeEmail "a@b" = None
  /\ normalizeEmail "   " = None.
Proof. repeat split; reflexivity. Qed.

Example test_normalizePhone :
  normalizePhone defaultNormalizer "5551234567" None = Some "+15551234567"
  /\ normalizePhone defaultNormalizer "(555) 123-4567" None = Some "+15551234567"
  /\ normalizePhone defaultNormalizer "+44 20 7946 0958" None = Some "+442079460958"
  /\ normalizePhone defaultNormalizer "5551234567" (Some "44") = Some "+445551234567"
  /\ normalizePhone defaultNormalizer "123" None = None
  /\ normalizePhone defaultNormalizer "   " None = None.
Proof. repeat split; reflexivity. Qed.

Example test_normalizeName :
  normalizeName "John" = Some "john"
  /\ normalizeName "john   doe" = Some "john doe"
  /\ normalizeName "   " = None.
Proof. repeat split; reflexivity. Qed.

Example test_normalizeGender :
  normalizeGender "MALE" = Some "m"
  /\ normalizeGender "Female" = Some "f"
  /\ normalizeGender "other" = None.
Proof. repeat split; reflexivity. Qed.

Example test_normalizeAddress :
  normalizeCity "  NEW YORK  " = Some "new york"
  /\ normalizeState "California" = Some "california"
  /\ normalizeZipCode "SW1A 1AA" = Some "sw1a1aa"
  /\ normalizeCountry "  GB  " = Some "gb"
  /\ normalizeCountry "USA" = None.
Proof. repeat split; reflexivity. Qed.

(** Published SHA-256 test vectors, and the tests of [isSha256]. *)
Example sha256_empty :
  sha256 "" = "e3b0c44298fc1c149afbf4c8996fb92427ae41e4649b934ca495991b7852b855".
Proof. vm_compute. reflexivity. Qed.

Example sha256_abc :
  sha256 "abc" = "ba7816bf8f01cfea414140de5dae2223b00361a396177a9cb410ff61f20015ad".
Proof. vm_compute. reflexivity. Qed.

Example sha256_two_blocks :
  sha256 "abcdbcdecdefdefgefghfghighijhijkijkljklmklmnlmnomnopnopq"
  = "248d6a61d20638b8e5c026930c3e6039a33ce45964ff2167f6ecedd419db06c1".
Proof. vm_compute. reflexivity. Qed.

Example sha256_password :
  sha256 "password" = "5e884898da28047151d0e56f8dc6292773603d0d6aabbdd62a11ef721d1542d8".
Proof. vm_compute. reflexivity. Qed.

Example test_isSha256 :
  isSha256 "5e884898da28047151d0e56f8dc6292773603d0d6aabbdd62a11ef721d1542d8" = true
  /\ isSha256 "abc123" = false
  /\ isSha256 "5e884898da28047151d0e56f8dc6292773603d0d6aabbdd62a11ef721d1542d8Z" = false
  /\ isSha256 "5E884898DA28047151D0E56F8DC6292773603D0D6AABBDD62A11EF721D1542D8" = false.
Proof. repeat split; reflexivity. Qed.

(** The batch test "should skip invalid fields" and "should handle empty
    input". *)
Example test_normalize_skips_invalid :
  normalize defaultNormalizer
    {| raw_email := Some "invalid-email"; raw_phone := Some "123";
       raw_first_name := Some ""; raw_last_name := None;
       raw_gender := Some "other"; raw_date_of_birth := None;
       raw_external_id := None; raw_city := None; raw_state := None;
       raw_zip_code := None; raw_country := None; raw_ip_address := None;
       raw_user_agent := None; raw_subscription_id := None;
       raw_lead_id := None; raw_anonymous_id := None; raw_traits := None |}
  = [].
Proof. reflexivity. Qed.

Example test_normalize_passthrough :
  normalize defaultNormalizer
    {| raw_email := None; raw_phone := None;
       raw_first_name := None; raw_last_name := None;
       raw_gender := None; raw_date_of_birth := None;
       raw_external_id := None; raw_city := None; raw_state := None;
       raw_zip_code := None; raw_country := None;
       raw_ip_address := Some "192.168.1.1";
       raw_user_agent := Some "Mozilla/5.0";
       raw_subscription_id := None;
       raw_lead_id := Some "lead_67890"; raw_anonymous_id := None;
       raw_traits := Some [("custom", UStr "value")] |}
  = [ (Key.ip_address, VStr "192.168.1.1");
      (Key.user_agent, VStr "Mozilla/5.0");
      (Key.lead_id, VStr "lead_67890");
      (Key.traits, VObj [("custom", UStr "value")]) ].
Proof. reflexivity. Qed.

(** The batch tests "should normalize and hash all PII fields" and "should
    hash address fields when configured". *)
Example test_normalize_all_fields :
  let result := normalize defaultNormalizer rawAllFields in
  forallb (isDigestAt result)
    [ Key.email; Key.phone; Key.first_name; Key.last_name; Key.gender;
      Key.date_of_birth; Key.external_id ] = true
  /\ get Key.city result = Some (VStr "San Francisco")
  /\ get Key.state result = Some (VStr "CA")
  /\ get Key.zip_code result = Some (VStr "94102")
  /\ get Key.country result = Some (VStr "US").
Proof. vm_compute. repeat split. Qed.

Example test_normalize_hashes_address :
  let result :=
    normalize (constructor {| opt_defaultCountryCode := None;
                              opt_hashAddressFields := Some true |})
              rawAllFields in
  forallb (isDigestAt result)
    [ Key.city; Key.state; Key.zip_code; Key.country ] = true
  /\ get Key.city result = Some (VStr (sha256 "san francisco")).
Proof. vm_compute. repeat split. Qed.

(* ================================================================== *)
(** ** Facts about the string primitives *)

Section StringFacts.

Lemma length_append (s t : string) :
  String.length (s ++ t) = String.length s + String.length t.
Proof. induction s as [|c s IH]; simpl; [reflexivity | now rewrite IH]. Qed.

Lemma truthy_length (s : string) :
  JS.truthy s = negb (String.length s =? 0)%nat.
Proof. destruct s; reflexivity. Qed.

Lemma every_append (p : ascii -> bool) (s t : string) :
  JS.every p (s ++ t) = JS.every p s && JS.every p t.
Proof.
  induction s as [|c s IH]; simpl; [reflexivity|].
  now rewrite IH, andb_assoc.
Qed.

Lemma every_impl (p q : ascii -> bool) (s : string) :
  (forall c, p c = true -> q c = true) ->
  JS.every p s = true -> JS.every q s = true.
Proof.
  intros Hpq; induction s as [|c s IH]; simpl; [reflexivity|].
  intros H; apply andb_true_iff in H as [Hc Hs].
  now rewrite (Hpq _ Hc), IH.
Qed.

Lemma removeAll_append (cls : ascii -> bool) (s t : string) :
  JS.removeAll cls (s ++ t) = JS.removeAll cls s ++ JS.removeAll cls t.
Proof.
  induction s as [|c s IH]; simpl; [reflexivity|].
  destruct (cls c); simpl; now rewrite IH.
Qed.

Lemma removeAll_every (cls : ascii -> bool) (s : string) :
  JS.every (fun c => negb (cls c)) (JS.removeAll cls s) = true.
Proof.
  induction s as [|c s IH]; simpl; [reflexivity|].
  destruct (cls c) eqn:E; simpl; [exact IH | now rewrite E, IH].
Qed.

Lemma removeAll_fixed (cls : ascii -> bool) (s : string) :
  JS.every (fun c => negb (cls c)) s = true -> JS.removeAll cls s = s.
Proof.
  induction s as [|c s IH]; simpl; [reflexivity|].
  intros H; apply andb_true_iff in H as [Hc Hs].
  apply negb_true_iff in Hc; rewrite Hc; now rewrite IH.
Qed.

Lemma every_slice1 (p : ascii -> bool) (s : string) :
  JS.every p s = true -> JS.every p (JS.slice1 s) = true.
Proof.
  destruct s as [|c s]; simpl; [reflexivity|].
  intros H; now apply andb_true_iff in H as [_ Hs].
Qed.

(** *** Case mapping and white space, character by character *)

Ltac by_cases_on c :=
  destruct c as [[] [] [] [] [] [] [] []]; vm_compute; reflexivity.

Lemma lowerChar_idem (c : ascii) :
  JS.lowerChar (JS.lowerChar c) = JS.lowerChar c.
Proof. by_cases_on c. Qed.

Lemma isWhiteSpace_lowerChar (c : ascii) :
  JS.isWhiteSpace (JS.lowerChar c) = JS.isWhiteSpace c.
Proof. by_cases_on c. Qed.

Lemma isDigit_not_separator (c : ascii) :
  JS.isDigit c = true -> isDateSeparator c = false.
Proof.
  destruct c as [[] [] [] [] [] [] [] []]; vm_compute;
    intros H; first [reflexivity | discriminate H].
Qed.

Lemma isDigit_spec (c : ascii) :
  JS.isDigit c
  = existsb (Ascii.eqb c)
      ["0"; "1"; "2"; "3"; "4"; "5"; "6"; "7"; "8"; "9"]%char.
Proof. by_cases_on c. Qed.

Lemma isDateSeparator_spec (c : ascii) :
  isDateSeparator c = existsb (Ascii.eqb c) ["-"; "/"; "."]%char.
Proof. by_cases_on c. Qed.

Lemma toLowerCase_idem (s : string) :
  JS.toLowerCase (JS.toLowerCase s) = JS.toLowerCase s.
Proof.
  induction s as [|c s IH]; simpl; [reflexivity|].
  now rewrite lowerChar_idem, IH.
Qed.

Lemma toLowerCase_append (s t : string) :
  JS.toLowerCase (s ++ t) = JS.toLowerCase s ++ JS.toLowerCase t.
Proof. induction s as [|c s IH]; simpl; [reflexivity | now rewrite IH]. Qed.

Lemma toLowerCase_trimStart (s : string) :
  JS.toLowerCase (JS.trimStart s) = JS.trimStart (JS.toLowerCase s).
Proof.
  induction s as [|c s IH]; simpl; [reflexivity|].
  rewrite isWhiteSpace_lowerChar.
  destruct (JS.isWhiteSpace c); [exact IH | reflexivity].
Qed.

Lemma toLowerCase_trimEnd (s : string) :
  JS.toLowerCase (JS.trimEnd s) = JS.trimEnd (JS.toLowerCase s).
Proof.
  induction s as [|c s IH]; simpl; [reflexivity|].
  rewrite <- IH, isWhiteSpace_lowerChar.
  destruct (JS.trimEnd s); simpl; [|reflexivity].
  destruct (JS.isWhiteSpace c); reflexivity.
Qed.

Lemma toLowerCase_trim (s : string) :
  JS.toLowerCase (JS.trim s) = JS.trim (JS.toLowerCase s).
Proof.
  unfold JS.trim. now rewrite toLowerCase_trimEnd, toLowerCase_trimStart.
Qed.

End StringFacts.

(* ================================================================== *)
(** ** [trim]: what it removes and what it leaves *)

Section TrimFacts.

Lemma trimEnd_cons (c : ascii) (r : string) :
  JS.trimEnd (String c r)
  = match JS.trimEnd r with
    | EmptyString =>
        if JS.isWhiteSpace c then EmptyString else String c EmptyString
    | t => String c t
    end.
Proof. reflexivity. Qed.

Lemma endsClean_cons (c a : ascii) (r : string) :
  endsClean (String c (String a r)) = endsClean (String a r).
Proof. reflexivity. Qed.

Lemma trimStart_startsClean (s : string) :
  startsClean (JS.trimStart s) = true.
Proof.
  induction s as [|c s IH]; simpl; [reflexivity|].
  destruct (JS.isWhiteSpace c) eqn:E; [exact IH | simpl; now rewrite E].
Qed.

Lemma trimStart_fixed (s : string) :
  startsClean s = true -> JS.trimStart s = s.
Proof.
  destruct s as [|c s]; simpl; [reflexivity|].
  intros H; apply negb_true_iff in H; now rewrite H.
Qed.

Lemma trimEnd_endsClean (s : string) : endsClean (JS.trimEnd s) = true.
Proof.
  induction s as [|c s IH]; [reflexivity|].
  rewrite trimEnd_cons.
  destruct (JS.trimEnd s) as [|a t] eqn:E.
  - destruct (JS.isWhiteSpace c) eqn:W; simpl; [reflexivity | now rewrite W].
  - rewrite endsClean_cons; exact IH.
Qed.

Lemma trimEnd_fixed (s : string) :
  endsClean s = true -> JS.trimEnd s = s.
Proof.
  induction s as [|c s IH]; [reflexivity|].
  destruct s as [|a r].
  - simpl; intros H; apply negb_true_iff in H; now rewrite H.
  - rewrite endsClean_cons; intros H.
    rewrite trimEnd_cons, (IH H); reflexivity.
Qed.

Lemma startsClean_trimEnd (s : string) :
  startsClean s = true -> startsClean (JS.trimEnd s) = true.
Proof.
  destruct s as [|c s]; [reflexivity|].
  simpl startsClean at 1; intros H; rewrite trimEnd_cons.
  destruct (JS.trimEnd s).
  - apply negb_true_iff in H; rewrite H; simpl; now rewrite H.
  - exact H.
Qed.

Lemma trim_startsClean (s : string) : startsClean (JS.trim s) = true.
Proof. apply startsClean_trimEnd, trimStart_startsClean. Qed.

Lemma trim_endsClean (s : string) : endsClean (JS.trim s) = true.
Proof. apply trimEnd_endsClean. Qed.

Lemma trim_fixed (s : string) :
  startsClean s = true -> endsClean s = true -> JS.trim s = s.
Proof.
  intros Hs He; unfold JS.trim.
  now rewrite (trimStart_fixed _ Hs), (trimEnd_fixed _ He).
Qed.

Lemma trim_idem (s : string) : JS.trim (JS.trim s) = JS.trim s.
Proof. apply trim_fixed; [apply trim_startsClean | apply trim_endsClean]. Qed.

(** [trim] after [toLowerCase] is stable under a second pass. *)
Lemma trim_lower_stable (s : string) :
  JS.trim (JS.toLowerCase (JS.trim (JS.toLowerCase s)))
  = JS.trim (JS.toLowerCase s).
Proof. now rewrite toLowerCase_trim, toLowerCase_idem, trim_idem. Qed.

Lemma lower_trim_lower (s : string) :
  JS.toLowerCase (JS.trim (JS.toLowerCase s)) = JS.trim (JS.toLowerCase s).
Proof. now rewrite toLowerCase_trim, toLowerCase_idem. Qed.

Lemma trimStart_split (s : string) :
  exists l, s = l ++ JS.trimStart s /\ JS.every JS.isWhiteSpace l = true.
Proof.
  induction s as [|c s (l & Hl & Hw)].
  - exists ""; split; reflexivity.
  - simpl; destruct (JS.isWhiteSpace c) eqn:E.
    + exists (String c l); simpl; rewrite E, Hw; split; [now f_equal | reflexivity].
    + exists ""; split; reflexivity.
Qed.

Lemma trimEnd_split (s : string) :
  exists r, s = JS.trimEnd s ++ r /\ JS.every JS.isWhiteSpace r = true.
Proof.
  induction s as [|c s (r & Hr & Hw)].
  - exists ""; split; reflexivity.
  - rewrite trimEnd_cons; destruct (JS.trimEnd s) as [|a t] eqn:E.
    + simpl in Hr; subst r; destruct (JS.isWhiteSpace c) eqn:W.
      * exists (String c s); simpl; rewrite W, Hw; split; reflexivity.
      * exists s; split; [reflexivity | exact Hw].
    + exists r; split; [simpl; now f_equal | exact Hw].
Qed.

Lemma trim_split (s : string) :
  exists l r,
    s = l ++ JS.trim s ++ r
    /\ JS.every JS.isWhiteSpace l = true
    /\ JS.every JS.isWhiteSpace r = true.
Proof.
  destruct (trimStart_split s) as (l & Hl & Hwl).
  destruct (trimEnd_split (JS.trimStart s)) as (r & Hr & Hwr).
  exists l, r; repeat split; try assumption.
  unfold JS.trim; now rewrite <- Hr.
Qed.

End TrimFacts.

(* ================================================================== *)
(** ** [replace(/\s+/g, rep)] *)

Section ReplaceFacts.

Lemma toLowerCase_replaceRuns (rep : string) (b : bool) (s : string) :
  JS.toLowerCase (JS.replaceRuns rep b s)
  = JS.replaceRuns (JS.toLowerCase rep) b (JS.toLowerCase s).
Proof.
  revert b; induction s as [|c s IH]; intros b; simpl; [reflexivity|].
  rewrite isWhiteSpace_lowerChar.
  destruct (JS.isWhiteSpace c); [destruct b|]; simpl;
    rewrite ?toLowerCase_append, IH; reflexivity.
Qed.

Lemma replaceRuns_nonempty (rep : string) (b : bool) (s : string) :
  endsClean s = true -> s <> "" -> JS.replaceRuns rep b s <> "".
Proof.
  revert b; induction s as [|c s IH]; intros b He Hne; [congruence|].
  simpl; destruct (JS.isWhiteSpace c) eqn:W; [|discriminate].
  destruct s as [|a r]; [simpl in He; rewrite W in He; discriminate|].
  rewrite endsClean_cons in He.
  assert (Hr : JS.replaceRuns rep true (String a r) <> "")
    by (apply IH; [exact He | discriminate]).
  destruct b; [exact Hr|].
  intros Habs; apply Hr.
  destruct rep; simpl in Habs; [exact Habs | discriminate].
Qed.

Lemma startsClean_replaceRuns (rep : string) (b : bool) (s : string) :
  startsClean s = true -> startsClean (JS.replaceRuns rep b s) = true.
Proof.
  destruct s as [|c s]; simpl; [reflexivity|].
  intros H; apply negb_true_iff in H; rewrite H; simpl; now rewrite H.
Qed.

Lemma endsClean_replaceRuns (b : bool) (s : string) :
  endsClean s = true -> endsClean (JS.replaceRuns " " b s) = true.
Proof.
  revert b; induction s as [|c s IH]; intros b He; [reflexivity|].
  destruct s as [|a r].
  - simpl in He; simpl; apply negb_true_iff in He; rewrite He; simpl.
    now rewrite He.
  - rewrite endsClean_cons in He.
    assert (Hne : forall b', JS.replaceRuns " " b' (String a r) <> "")
      by (intros b'; apply replaceRuns_nonempty; [exact He | discriminate]).
    specialize (IH true He) as IHt. specialize (IH false He) as IHf.
    remember (String a r) as t eqn:Et.
    simpl; destruct (JS.isWhiteSpace c); [destruct b|].
    + exact IHt.
    + simpl. specialize (Hne true).
      destruct (JS.replaceRuns " " true t); [congruence | exact IHt].
    + specialize (Hne false).
      destruct (JS.replaceRuns " " false t); [congruence | exact IHf].
Qed.

Lemma replaceRuns_singleSpaced (b : bool) (s : string) :
  singleSpaced b (JS.replaceRuns " " b s) = true.
Proof.
  revert b; induction s as [|c s IH]; intros b; simpl; [reflexivity|].
  destruct (JS.isWhiteSpace c) eqn:W; [destruct b|].
  - apply IH.
  - simpl. now rewrite IH.
  - simpl; rewrite W; apply IH.
Qed.

Lemma replaceRuns_fixed (b : bool) (s : string) :
  singleSpaced b s = true -> JS.replaceRuns " " b s = s.
Proof.
  revert b; induction s as [|c s IH]; intros b; simpl; [reflexivity|].
  destruct (JS.isWhiteSpace c) eqn:W.
  - intros H; apply andb_true_iff in H as [H Hs].
    apply andb_true_iff in H as [Hb Hc].
    apply negb_true_iff in Hb; subst b.
    apply Ascii.eqb_eq in Hc; subst c.
    now rewrite (IH _ Hs).
  - intros H; now rewrite (IH _ H).
Qed.

Lemma replaceRuns_empty (b : bool) (s : string) :
  JS.replaceRuns "" b s = JS.removeAll JS.isWhiteSpace s.
Proof.
  revert b; induction s as [|c s IH]; intros b; simpl; [reflexivity|].
  destruct (JS.isWhiteSpace c); [destruct b|]; simpl; now rewrite IH.
Qed.

Lemma startsClean_noWhiteSpace (s : string) :
  JS.every (fun c => negb (JS.isWhiteSpace c)) s = true -> startsClean s = true.
Proof.
  destruct s as [|c s]; simpl; [reflexivity|].
  intros H; now apply andb_true_iff in H as [Hc _].
Qed.

Lemma endsClean_noWhiteSpace (s : string) :
  JS.every (fun c => negb (JS.isWhiteSpace c)) s = true -> endsClean s = true.
Proof.
  induction s as [|c s IH]; [reflexivity|].
  simpl JS.every; intros H; apply andb_true_iff in H as [Hc Hs].
  destruct s as [|a r]; [exact Hc|].
  rewrite endsClean_cons; exact (IH Hs).
Qed.

End ReplaceFacts.

(* ================================================================== *)
(** ** A second pass of each normalizer *)

Section Idempotence.

Lemma truthy_of_length (s : string) (n : nat) :
  n <= String.length s -> 0 < n -> JS.truthy s = true.
Proof. destruct s; simpl; [lia | reflexivity]. Qed.

Lemma normalizeEmail_idem (x y : string) :
  normalizeEmail x = Some y -> normalizeEmail y = Some y.
Proof.
  unfold normalizeEmail.
  destruct (JS.truthy x); simpl; [|discriminate].
  destruct (negb _ || _) eqn:E; [discriminate|].
  intros [= <-].
  rewrite trim_lower_stable, E.
  apply orb_false_iff in E as [_ E]; apply Nat.ltb_ge in E.
  rewrite (truthy_of_length _ 5 E); [reflexivity | lia].
Qed.

Lemma trimmed_lower_idem (x y : string) :
  (if negb (JS.truthy x) then None
   else if (String.length (JS.trim (JS.toLowerCase x)) =? 0)%nat then None
        else Some (JS.trim (JS.toLowerCase x))) = Some y ->
  (if negb (JS.truthy y) then None
   else if (String.length (JS.trim (JS.toLowerCase y)) =? 0)%nat then None
        else Some (JS.trim (JS.toLowerCase y))) = Some y.
Proof.
  destruct (JS.truthy x); simpl; [|discriminate].
  destruct (_ =? 0)%nat eqn:E; [discriminate|].
  intros [= <-].
  rewrite trim_lower_stable, E.
  rewrite truthy_length, E; reflexivity.
Qed.

Lemma normalizeCity_idem (x y : string) :
  normalizeCity x = Some y -> normalizeCity y = Some y.
Proof. exact (trimmed_lower_idem x y). Qed.

Lemma normalizeState_idem (x y : string) :
  normalizeState x = Some y -> normalizeState y = Some y.
Proof. exact (trimmed_lower_idem x y). Qed.

Lemma normalizeCountry_idem (x y : string) :
  normalizeCountry x = Some y -> normalizeCountry y = Some y.
Proof.
  unfold normalizeCountry.
  destruct (JS.truthy x); simpl; [|discriminate].
  destruct (_ =? 2)%nat eqn:E; simpl; [|discriminate].
  intros [= <-].
  rewrite trim_lower_stable, E; simpl.
  apply Nat.eqb_eq in E.
  rewrite (truthy_of_length _ 2); [reflexivity | lia | lia].
Qed.

Lemma normalizeGender_idem (x y : string) :
  normalizeGender x = Some y -> normalizeGender y = Some y.
Proof.
  unfold normalizeGender.
  destruct (JS.truthy x); simpl; [|discriminate].
  destruct (_ || _); [intros [= <-]; reflexivity|].
  destruct (_ || _); [intros [= <-]; reflexivity | discriminate].
Qed.

Lemma normalizeDateOfBirth_idem (x y : string) :
  normalizeDateOfBirth x = Some y -> normalizeDateOfBirth y = Some y.
Proof.
  unfold normalizeDateOfBirth.
  destruct (JS.truthy x); simpl; [|discriminate].
  destruct (isEightDigits _) eqn:E; simpl; [|discriminate].
  intros [= <-].
  set (t := JS.removeAll isDateSeparator x) in *.
  pose proof E as E'. unfold isEightDigits in E'.
  apply andb_true_iff in E' as [Hlen Hdig]; apply Nat.eqb_eq in Hlen.
  assert (Hfix : JS.removeAll isDateSeparator t = t).
  { apply removeAll_fixed. revert Hdig; apply every_impl.
    intros c Hc; now rewrite (isDigit_not_separator c Hc). }
  rewrite Hfix, E; simpl.
  rewrite (truthy_of_length _ 8); [reflexivity | lia | lia].
Qed.

Lemma normalizeName_idem (x y : string) :
  normalizeName x = Some y -> normalizeName y = Some y.
Proof.
  unfold normalizeName, JS.replaceWhiteSpaceRuns.
  destruct (JS.truthy x); simpl; [|discriminate].
  destruct (_ =? 0)%nat eqn:E; [discriminate|].
  intros [= <-].
  set (t := JS.trim (JS.toLowerCase x)) in *.
  set (y := JS.replaceRuns " " false t) in *.
  assert (Hlow : JS.toLowerCase y = y).
  { unfold y; rewrite toLowerCase_replaceRuns; unfold t.
    now rewrite lower_trim_lower. }
  assert (Htrim : JS.trim y = y).
  { apply trim_fixed; unfold y.
    - apply startsClean_replaceRuns, trim_startsClean.
    - apply endsClean_replaceRuns, trim_endsClean. }
  assert (Hrep : JS.replaceRuns " " false y = y)
    by apply replaceRuns_fixed, replaceRuns_singleSpaced.
  rewrite Hlow, Htrim, Hrep, E.
  rewrite truthy_length, E; reflexivity.
Qed.

Lemma normalizeZipCode_idem (x y : string) :
  normalizeZipCode x = Some y -> normalizeZipCode y = Some y.
Proof.
  unfold normalizeZipCode, JS.replaceWhiteSpaceRuns.
  destruct (JS.truthy x); simpl; [|discriminate].
  destruct (_ =? 0)%nat eqn:E; [discriminate|].
  intros [= <-].
  set (t := JS.trim (JS.toLowerCase x)) in *.
  set (y := JS.replaceRuns "" false t) in *.
  assert (Hy : y = JS.removeAll JS.isWhiteSpace t) by apply replaceRuns_empty.
  assert (Hclean : JS.every (fun c => negb (JS.isWhiteSpace c)) y = true)
    by (rewrite Hy; apply removeAll_every).
  assert (Hlow : JS.toLowerCase y = y).
  { unfold y; rewrite toLowerCase_replaceRuns; unfold t.
    now rewrite lower_trim_lower. }
  assert (Htrim : JS.trim y = y).
  { apply trim_fixed;
      [now apply startsClean_noWhiteSpace | now apply endsClean_noWhiteSpace]. }
  assert (Hrep : JS.replaceRuns "" false y = y).
  { rewrite replaceRuns_empty. now apply removeAll_fixed. }
  rewrite Hlow, Htrim, Hrep, E.
  rewrite truthy_length, E; reflexivity.
Qed.

End Idempotence.

(* ================================================================== *)
(** ** The phone normalizer *)

Section PhoneFacts.

Lemma startsWithChar_plus (s : string) :
  (if JS.startsWithChar "+" s then JS.slice1 s else s)
  = match s with
    | String "+" r => r
    | _ => s
    end.
Proof.
  destruct s as [|c r]; [reflexivity|].
  simpl. destruct (Ascii.eqb_spec c "+") as [->|Hne]; [reflexivity|].
  destruct c as [[] [] [] [] [] [] [] []]; try reflexivity.
  now contradiction Hne.
Qed.

Lemma digitsAndPlus_removeAll (s : string) :
  digitsAndPlus s = JS.removeAll notDigitOrPlus s.
Proof.
  unfold digitsAndPlus, notDigitOrPlus.
  induction s as [|c s IH]; simpl; [reflexivity|].
  destruct (JS.isDigit c || Ascii.eqb c "+"); simpl; now rewrite IH.
Qed.



Lemma normalizePhone_stripped (this : Normalizer) (phone : string)
    (countryCode : option string) :
  normalizePhone this phone countryCode
  = if (String.length (strippedPhone phone) <? 10)%nat then None
    else if (String.length (strippedPhone phone) =? 10)%nat
         then Some ("+" ++ nullish countryCode (defaultCountryCode this)
                        ++ strippedPhone phone)
         else Some ("+" ++ strippedPhone phone).
Proof.
  destruct phone as [|c r]; [reflexivity|].
  unfold normalizePhone, strippedPhone; cbn [JS.truthy negb].
  destruct (_ <? 10)%nat; [reflexivity|].
  destruct (_ =? 10)%nat; reflexivity.
Qed.

Lemma strippedPhone_every (phone : string) :
  JS.every (fun c => negb (notDigitOrPlus c)) (strippedPhone phone) = true.
Proof.
  unfold strippedPhone.
  pose proof (removeAll_every notDigitOrPlus phone) as H.
  destruct (JS.startsWithChar _ _); [now apply every_slice1 | exact H].
Qed.

Lemma strippedPhone_plus (s : string) :
  strippedPhone (String "+" s) = JS.removeAll notDigitOrPlus s.
Proof. reflexivity. Qed.

Lemma strippedPhone_kept (phone : string) :
  strippedPhone phone
  = match digitsAndPlus phone with
    | String "+" r => r
    | _ => digitsAndPlus phone
    end.
Proof.
  unfold strippedPhone.
  now rewrite startsWithChar_plus, digitsAndPlus_removeAll.
Qed.




Lemma normalizePhone_idem (this : Normalizer) (c : option string)
    (x y : string) :
  plainCode (nullish c (defaultCountryCode this)) = true ->
  normalizePhone this x c = Some y -> normalizePhone this y c = Some y.
Proof.
  intros Hcode. rewrite !normalizePhone_stripped.
  set (code := nullish c (defaultCountryCode this)) in *.
  set (d := strippedPhone x).
  assert (Hd : JS.removeAll notDigitOrPlus d = d)
    by apply removeAll_fixed, strippedPhone_every.
  destruct (String.length d <? 10)%nat eqn:Elt; [discriminate|].
  destruct (String.length d =? 10)%nat eqn:Eeq; intros [= <-].
  - apply Nat.eqb_eq in Eeq.
    change ("+" ++ code ++ d) with (String "+" (code ++ d)).
    rewrite strippedPhone_plus, removeAll_append, Hd.
    unfold plainCode in Hcode; apply orb_true_iff in Hcode as [H|H];
      apply String.eqb_eq in H; rewrite H.
    + destruct code as [|a code'].
      * simpl. rewrite Elt. apply Nat.eqb_eq in Eeq; now rewrite Eeq.
      * rewrite length_append, Eeq; simpl String.length.
        assert (E1 : (S (String.length code') + 10 <? 10)%nat = false)
          by (apply Nat.ltb_ge; lia).
        assert (E2 : (S (String.length code') + 10 =? 10)%nat = false)
          by (apply Nat.eqb_neq; lia).
        rewrite E1, E2; reflexivity.
    + change ("" ++ d) with d. rewrite Elt.
      apply Nat.eqb_eq in Eeq; now rewrite Eeq.
  - change ("+" ++ d) with (String "+" d).
    rewrite strippedPhone_plus, Hd, Elt, Eeq; reflexivity.
Qed.

End PhoneFacts.

(* ================================================================== *)
(** ** The result object, statement by statement *)

Section ObjectFacts.

Lemma eqb_same (k : Key.t) : Key.eqb k k = true.
Proof. unfold Key.eqb; destruct (Key.eq_dec k k); congruence. Qed.

Lemma eqb_other (k k' : Key.t) : k <> k' -> Key.eqb k k' = false.
Proof. unfold Key.eqb; destruct (Key.eq_dec k k'); congruence. Qed.

Lemma get_set_same (k : Key.t) (v : Value) (o : NormalizedUserData) :
  get k (set k v o) = Some v.
Proof.
  induction o as [|[k' v'] o IH]; simpl.
  - now rewrite eqb_same.
  - destruct (Key.eqb k k') eqn:E; simpl; rewrite E; [reflexivity | exact IH].
Qed.

Lemma get_set_other (k k' : Key.t) (v : Value) (o : NormalizedUserData) :
  k <> k' -> get k (set k' v o) = get k o.
Proof.
  intros Hne; induction o as [|[k'' v''] o IH]; simpl.
  - now rewrite (eqb_other _ _ Hne).
  - destruct (Key.eqb k' k'') eqn:E; simpl.
    + unfold Key.eqb in E; destruct (Key.eq_dec k' k''); [subst | discriminate].
      now rewrite (eqb_other _ _ Hne).
    + now rewrite IH.
Qed.

Lemma get_assignHash_other (k k' : Key.t) (h : option string)
    (o : NormalizedUserData) :
  k <> k' -> get k (assignHash k' h o) = get k o.
Proof.
  intros Hne; unfold assignHash.
  destruct h as [d|]; [|reflexivity].
  destruct (JS.truthy d); [now apply get_set_other | reflexivity].
Qed.

Lemma get_whenTruthy_other (k : Key.t) (x : option string)
    (body : string -> NormalizedUserData -> NormalizedUserData)
    (o : NormalizedUserData) :
  (forall v r, get k (body v r) = get k r) ->
  get k (whenTruthy x body o) = get k o.
Proof.
  intros H; unfold whenTruthy.
  destruct x as [v|]; [|reflexivity].
  destruct (JS.truthy v); [apply H | reflexivity].
Qed.

Lemma get_whenObject_other (k : Key.t) (x : option (list (string * unknown)))
    (body : list (string * unknown) -> NormalizedUserData -> NormalizedUserData)
    (o : NormalizedUserData) :
  (forall v r, get k (body v r) = get k r) ->
  get k (whenObject x body o) = get k o.
Proof. intros H; destruct x as [v|]; [apply H | reflexivity]. Qed.

Lemma get_hash_statement (k : Key.t) (x : option string)
    (h : string -> option string) (o : NormalizedUserData) :
  get k o = None ->
  get k (whenTruthy x (fun v => assignHash k (h v)) o) = hashed x h.
Proof.
  intros Ho; unfold whenTruthy, assignHash, hashed.
  destruct x as [v|]; [|exact Ho].
  destruct (JS.truthy v); [|exact Ho].
  destruct (h v) as [d|]; [|exact Ho].
  destruct (JS.truthy d); [apply get_set_same | exact Ho].
Qed.

Lemma get_copy_statement (k : Key.t) (x : option string)
    (o : NormalizedUserData) :
  get k o = None ->
  get k (whenTruthy x (fun v => set k (VStr v)) o) = copied x.
Proof.
  intros Ho; unfold whenTruthy, copied.
  destruct x as [v|]; [|exact Ho].
  destruct (JS.truthy v); [apply get_set_same | exact Ho].
Qed.

Lemma get_address_statement (k : Key.t) (flag : bool) (x : option string)
    (h : string -> option string) (o : NormalizedUserData) :
  get k o = None ->
  get k (whenTruthy x (fun v result =>
           if flag then assignHash k (h v) result
           else set k (VStr v) result) o)
  = if flag then hashed x h else copied x.
Proof.
  intros Ho; destruct flag.
  - now apply get_hash_statement.
  - now apply get_copy_statement.
Qed.

Lemma get_object_statement (k : Key.t) (x : option (list (string * unknown)))
    (o : NormalizedUserData) :
  get k o = None ->
  get k (whenObject x (fun v => set k (VObj v)) o) = option_map VObj x.
Proof.
  intros Ho; destruct x as [v|]; simpl; [apply get_set_same | exact Ho].
Qed.

Ltac other_key :=
  first [ rewrite get_set_other by discriminate
        | rewrite get_assignHash_other by discriminate
        | match goal with
          | |- context [if ?b then _ else _] => destruct b
          end ].

Ltac skip_statement :=
  first [ rewrite get_whenTruthy_other
            by (intros; repeat other_key; reflexivity)
        | rewrite get_whenObject_other
            by (intros; repeat other_key; reflexivity) ].

Ltac not_yet := repeat skip_statement; reflexivity.

(** The batch orchestrator, property by property. *)
Lemma get_normalize (this : Normalizer) (raw : RawUserData) (k : Key.t) :
  get k (normalize this raw) = outputOf this raw k.
Proof.
  unfold normalize; cbv zeta.
  destruct k; repeat skip_statement; simpl outputOf;
    first [ apply get_hash_statement; not_yet
          | apply get_copy_statement; not_yet
          | apply get_address_statement; not_yet
          | apply get_object_statement; not_yet ].
Qed.

Lemma In_keys_get (k : Key.t) (o : NormalizedUserData) :
  In k (keys o) <-> get k o <> None.
Proof.
  unfold keys; induction o as [|[k' v] o IH]; simpl.
  - split; [tauto | congruence].
  - unfold Key.eqb; destruct (Key.eq_dec k k') as [->|Hne].
    + split; [discriminate | auto].
    + rewrite <- IH; split; [intros [H|H]; [congruence | exact H] | auto].
Qed.

End ObjectFacts.

(* ================================================================== *)
(** ** The shape of a digest *)

Section DigestFacts.

Lemma be32_bytes (w : Z) : Forall isByte (SHA256.be32 w).
Proof.
  unfold SHA256.be32, isByte.
  repeat constructor; apply Z.mod_pos_bound; lia.
Qed.

Lemma be32_length (w : Z) : List.length (SHA256.be32 w) = 4.
Proof. reflexivity. Qed.

Lemma output_bytes (s : SHA256.state) : Forall isByte (SHA256.output s).
Proof.
  unfold SHA256.output.
  repeat (apply Forall_app; split); apply be32_bytes.
Qed.

Lemma output_length (s : SHA256.state) : List.length (SHA256.output s) = 32.
Proof.
  unfold SHA256.output. rewrite !List.length_app, !be32_length. reflexivity.
Qed.

(** The digest is a 32-byte array, whatever the data. *)
Lemma digest_bytes (data : list Z) : Forall isByte (SHA256.digest data).
Proof. apply output_bytes. Qed.

Lemma digest_length (data : list Z) : List.length (SHA256.digest data) = 32.
Proof. apply output_length. Qed.

Lemma hexPair_all_bytes :
  forallb (fun n => isHexPair (padStart 2 "0" (toString16 (Z.of_nat n))))
          (seq 0 256) = true.
Proof. vm_compute. reflexivity. Qed.

Lemma hexPair_byte (b : Z) :
  isByte b -> isHexPair (padStart 2 "0" (toString16 b)) = true.
Proof.
  intros [Hlo Hhi].
  pose proof hexPair_all_bytes as H.
  rewrite forallb_forall in H.
  specialize (H (Z.to_nat b)).
  rewrite Z2Nat.id in H by exact Hlo.
  apply H, in_seq; lia.
Qed.

Lemma hexOfBytes_shape (l : list Z) :
  Forall isByte l ->
  String.length (hexOfBytes l) = 2 * List.length l
  /\ JS.every isLowerHex (hexOfBytes l) = true.
Proof.
  induction 1 as [|b l Hb _ [IHlen IHhex]]; [split; reflexivity|].
  apply hexPair_byte in Hb; unfold isHexPair in Hb.
  apply andb_true_iff in Hb as [Hlen Hhex]; apply Nat.eqb_eq in Hlen.
  cbn [hexOfBytes]; split.
  - rewrite length_append, Hlen, IHlen; simpl List.length; lia.
  - now rewrite every_append, Hhex, IHhex.
Qed.

Lemma sha256_length (x : string) : String.length (sha256 x) = 64.
Proof.
  unfold sha256.
  destruct (hexOfBytes_shape _ (digest_bytes (encode x))) as [H _].
  now rewrite H, digest_length.
Qed.

Lemma sha256_hex (x : string) : JS.every isLowerHex (sha256 x) = true.
Proof.
  unfold sha256.
  now destruct (hexOfBytes_shape _ (digest_bytes (encode x))) as [_ H].
Qed.

Lemma sha256_truthy (x : string) : JS.truthy (sha256 x) = true.
Proof.
  apply (truthy_of_length _ 64); [rewrite sha256_length|]; lia.
Qed.

Lemma hashIfTruthy_truthy (n : option string) (d : string) :
  hashIfTruthy n = Some d -> JS.truthy d = true.
Proof.
  destruct n as [s|]; simpl; [|discriminate].
  destruct (JS.truthy s); [|discriminate].
  intros [= <-]; apply sha256_truthy.
Qed.

End DigestFacts.

(* ================================================================== *)
(** ** The claims *)

(** C4.  For every string [x], the digest [sha256 x] has exactly 64
    characters, each one of [0-9a-f], so [isSha256 (sha256 x)] is true. *)
Theorem sha256_isSha256 (x : string) :
  String.length (sha256 x) = 64
  /\ JS.every isLowerHex (sha256 x) = true
  /\ isSha256 (sha256 x) = true.
Proof.
  pose proof (sha256_length x) as Hlen.
  pose proof (sha256_hex x) as Hhex.
  repeat split; try assumption.
  unfold isSha256; now rewrite Hlen, Hhex.
Qed.

Lemma list_of_removeAll (cls : ascii -> bool) (s : string) :
  list_ascii_of_string (JS.removeAll cls s)
  = filter (fun c => negb (cls c)) (list_ascii_of_string s).
Proof.
  induction s as [|c s IH]; simpl; [reflexivity|].
  destruct (cls c); simpl; now rewrite IH.
Qed.

Lemma length_list_of_string (s : string) :
  List.length (list_ascii_of_string s) = String.length s.
Proof. induction s as [|c s IH]; simpl; [reflexivity | now rewrite IH]. Qed.

Lemma forallb_list_of_string (p : ascii -> bool) (s : string) :
  forallb p (list_ascii_of_string s) = JS.every p s.
Proof. induction s as [|c s IH]; simpl; [reflexivity | now rewrite IH]. Qed.

Lemma forallb_pointwise {A : Type} (p q : A -> bool) (l : list A) :
  (forall a, p a = q a) -> forallb p l = forallb q l.
Proof.
  intros H; induction l as [|a l IH]; simpl; [reflexivity|].
  now rewrite H, IH.
Qed.

Lemma normalizeDateOfBirth_refines (dob : string) :
  normalizeDateOfBirth dob = normalizeDateOfBirth_spec dob.
Proof.
  unfold normalizeDateOfBirth, normalizeDateOfBirth_spec, isEightDigits.
  rewrite (filter_ext _ (fun c => negb (isDateSeparator c)))
    by (intros c; now rewrite isDateSeparator_spec).
  rewrite <- list_of_removeAll.
  rewrite (forallb_pointwise _ JS.isDigit)
    by (intros c; now rewrite isDigit_spec).
  rewrite length_list_of_string, forallb_list_of_string.
  rewrite string_of_list_ascii_of_string.
  destruct dob as [|c r]; [reflexivity|].
  cbn [JS.truthy negb].
  destruct (_ && _); reflexivity.
Qed.

(** C7.  For every string, [normalizeDateOfBirth] removes the hyphen, slash
    and period characters and returns the cleaned string exactly when it is
    8 decimal digits, null otherwise: no calendar check, no field order.  In
    particular "1990-01-15" gives "19900115" and "01/15/1990" gives
    "01151990". *)
Theorem normalizeDateOfBirth_format_only :
  (forall dob : string,
      normalizeDateOfBirth dob = normalizeDateOfBirth_spec dob)
  /\ normalizeDateOfBirth "1990-01-15" = Some "19900115"
  /\ normalizeDateOfBirth "01/15/1990" = Some "01151990"
  /\ normalizeDateOfBirth "9999.99.99" = Some "99999999"
  /\ normalizeDateOfBirth "90-01-15" = None.
Proof.
  split; [exact normalizeDateOfBirth_refines | repeat split; reflexivity].
Qed.

(** C6.  For every non-empty string [s], [hashExternalId s] is the digest of
    [s] with its leading and trailing white space removed and nothing else
    done to it: no lower-casing (two spellings that differ in case have
    different digests, where [hashName] gives them one digest) and no format
    check (an all-blank id is hashed as the empty string). *)
Theorem hashExternalId_trims_only (s : string) :
  s <> "" ->
  hashExternalId s = Some (sha256 (JS.trim s))
  /\ (exists l r,
         s = l ++ JS.trim s ++ r
         /\ JS.every JS.isWhiteSpace l = true
         /\ JS.every JS.isWhiteSpace r = true)
  /\ startsClean (JS.trim s) = true
  /\ endsClean (JS.trim s) = true
  /\ hashExternalId "Ext_12345" = Some (sha256 "Ext_12345")
  /\ hashExternalId "Ext_12345" <> hashExternalId "ext_12345"
  /\ hashName "Ext_12345" = hashName "ext_12345"
  /\ hashExternalId "   " = Some (sha256 "").
Proof.
  intros Hs. repeat split.
  - destruct s; [congruence | reflexivity].
  - apply trim_split.
  - apply trim_startsClean.
  - apply trim_endsClean.
  - intros H; vm_compute in H; discriminate H.
Qed.

Lemma hashExternalId_trims_only_witness :
  "  Ext_12345 " <> ""
  /\ hashExternalId "  Ext_12345 " = Some (sha256 "Ext_12345").
Proof.
  assert (H : "  Ext_12345 " <> "") by discriminate.
  split; [exact H|].
  exact (proj1 (hashExternalId_trims_only "  Ext_12345 " H)).
Defined.

(** C9.  [normalizePhone] prepends the country code it is given, or the
    configured one, without validating it: for every string [c], empty or
    with characters that are not digits, and every input that strips to
    exactly 10 characters [d], the result is ["+" ++ c ++ d]. *)
Theorem normalizePhone_code_unchecked (this : Normalizer) (input c : string) :
  String.length (strippedPhone input) = 10 ->
  normalizePhone this input (Some c) = Some ("+" ++ c ++ strippedPhone input)
  /\ (forall h : option bool,
         normalizePhone
           (constructor {| opt_defaultCountryCode := Some c;
                           opt_hashAddressFields := h |}) input None
         = Some ("+" ++ c ++ strippedPhone input)).
Proof.
  intros Hlen; split; [|intros h];
    rewrite normalizePhone_stripped, Hlen; reflexivity.
Qed.

Lemma normalizePhone_code_unchecked_witness :
  String.length (strippedPhone "(555) 123-4567") = 10
  /\ normalizePhone defaultNormalizer "(555) 123-4567" (Some "x-1")
     = Some "+x-15551234567"
  /\ normalizePhone defaultNormalizer "(555) 123-4567" (Some "")
     = Some "+5551234567".
Proof.
  split; [reflexivity | split].
  - exact (proj1 (normalizePhone_code_unchecked
                    defaultNormalizer "(555) 123-4567" "x-1" eq_refl)).
  - exact (proj1 (normalizePhone_code_unchecked
                    defaultNormalizer "(555) 123-4567" "" eq_refl)).
Defined.

Lemma normalizeName_truthy (v n : string) :
  normalizeName v = Some n -> JS.truthy v = true /\ JS.truthy n = true.
Proof.
  unfold normalizeName.
  destruct (JS.truthy v); simpl; [|discriminate].
  destruct (_ =? 0)%nat eqn:E; [discriminate|].
  intros [= <-]; split; [reflexivity|].
  now rewrite truthy_length, E.
Qed.

Lemma hashed_name (v n : string) :
  normalizeName v = Some n -> hashed (Some v) hashName = Some (VStr (sha256 n)).
Proof.
  intros H; destruct (normalizeName_truthy _ _ H) as [Hv Hn].
  unfold hashed, hashName, hashIfTruthy.
  now rewrite Hv, H, Hn, sha256_truthy.
Qed.

(** C8.  [first_name] and [last_name] go through the same [hashName], with
    no field tag in the digest: for every string [v] that name normalization
    accepts, a record whose [first_name] and [last_name] are both [v] has the
    same digest in both output fields, the digest of the normalized name. *)
Theorem normalize_names_same_digest (this : Normalizer) (raw : RawUserData)
    (v n : string) :
  raw_first_name raw = Some v ->
  raw_last_name raw = Some v ->
  normalizeName v = Some n ->
  get Key.first_name (normalize this raw) = Some (VStr (sha256 n))
  /\ get Key.last_name (normalize this raw) = Some (VStr (sha256 n)).
Proof.
  intros Hf Hl Hn.
  rewrite !get_normalize; simpl outputOf.
  rewrite Hf, Hl. split; now apply hashed_name.
Qed.

Lemma normalize_names_same_digest_witness :
  normalizeName " John" = Some "john"
  /\ get Key.first_name (normalize defaultNormalizer (rawNames " John" " John"))
  = Some (VStr (sha256 "john"))
  /\ get Key.last_name (normalize defaultNormalizer (rawNames " John" " John"))
     = Some (VStr (sha256 "john")).
Proof.
  split; [reflexivity|].
  exact (normalize_names_same_digest defaultNormalizer
           (rawNames " John" " John") " John" "john"
           eq_refl eq_refl eq_refl).
Defined.

(** C10.  The batch [normalize] never passes a country code to phone
    hashing: for every raw record and configuration, the [phone] field of
    the output is [hashPhone raw.phone] with no second argument, which is
    the hash under the configured [defaultCountryCode]; an absent phone
    gives an absent field. *)
Theorem normalize_phone_default_code (this : Normalizer) (raw : RawUserData) :
  get Key.phone (normalize this raw)
  = match raw_phone raw with
    | Some p => option_map VStr (hashPhone this p None)
    | None => None
    end
  /\ (forall p,
         hashPhone this p None
         = hashPhone this p (Some (defaultCountryCode this))).
Proof.
  split; [|reflexivity].
  rewrite get_normalize; simpl outputOf; unfold hashed.
  destruct (raw_phone raw) as [p|]; [|reflexivity].
  destruct (JS.truthy p) eqn:Hp.
  - destruct (hashPhone this p None) as [d|] eqn:Hd; [|reflexivity].
    unfold hashPhone in Hd.
    now rewrite (hashIfTruthy_truthy _ _ Hd).
  - destruct p; [reflexivity | discriminate].
Qed.








(** C1 on the code: with [hashAddressFields] false the batch [normalize]
    copies the raw address value into the output and does not run the field
    normalizer, whatever the record, so a value the normalizer would change
    is left as it was ("San Francisco", where [normalizeCity] gives
    "san francisco") and a value the normalizer rejects is kept ("USA"). *)
Theorem normalize_copies_raw_address :
  (forall (code : string) (raw : RawUserData),
      let result := normalize (mkNormalizer code false) raw in
      get Key.city result = copied (raw_city raw)
      /\ get Key.state result = copied (raw_state raw)
      /\ get Key.zip_code result = copied (raw_zip_code raw)
      /\ get Key.country result = copied (raw_country raw))
  /\ normalizeCity "San Francisco" = Some "san francisco"
  /\ normalize defaultNormalizer (rawCity "San Francisco")
     = [(Key.city, VStr "San Francisco")]
  /\ normalizeCountry "USA" = None
  /\ normalize defaultNormalizer (rawCountry "USA")
     = [(Key.country, VStr "USA")].
Proof.
  split; [|repeat split].
  intros code raw result; unfold result.
  rewrite !get_normalize. repeat split.
Qed.

Lemma hashed_some (x : option string) (h : string -> option string)
    (v : Value) :
  hashed x h = Some v ->
  truthyValue v = true /\ exists s, x = Some s /\ JS.truthy s = true.
Proof.
  unfold hashed. destruct x as [s|]; [|discriminate].
  destruct (JS.truthy s) eqn:Hs; [|discriminate].
  destruct (h s) as [d|]; [|discriminate].
  destruct (JS.truthy d) eqn:Hd; [|discriminate].
  intros [= <-]; split; [exact Hd | now exists s].
Qed.

Lemma copied_some (x : option string) (v : Value) :
  copied x = Some v ->
  truthyValue v = true /\ exists s, x = Some s /\ JS.truthy s = true.
Proof.
  unfold copied. destruct x as [s|]; [|discriminate].
  destruct (JS.truthy s) eqn:Hs; [|discriminate].
  intros [= <-]; split; [exact Hs | now exists s].
Qed.

(** What [normalize] assigns is truthy, and assigned from a raw member that
    is present and truthy. *)
Lemma outputOf_some (this : Normalizer) (raw : RawUserData) (k : Key.t)
    (v : Value) :
  outputOf this raw k = Some v ->
  truthyValue v = true /\ truthyPresent raw k = true.
Proof.
  unfold truthyPresent.
  destruct k; simpl; try destruct (hashAddressFields this); intros H;
    try (apply hashed_some in H as [Hv (s & -> & Hs)]; now split);
    try (apply copied_some in H as [Hv (s & -> & Hs)]; now split).
  all: destruct (raw_traits raw); [|discriminate].
  all: injection H as <-; now split.
Qed.

(** The keys of the output are keys that the input holds with a truthy
    value. *)
Lemma normalize_keys_truthyPresent (this : Normalizer) (raw : RawUserData)
    (k : Key.t) :
  In k (keys (normalize this raw)) -> truthyPresent raw k = true.
Proof.
  rewrite In_keys_get, get_normalize.
  destruct (outputOf this raw k) as [v|] eqn:E; [|congruence].
  intros _; now apply (outputOf_some _ _ _ _ E).
Qed.

(** No output value is a null marker or an empty string. *)
Lemma normalize_values_truthy (this : Normalizer) (raw : RawUserData)
    (k : Key.t) (v : Value) :
  get k (normalize this raw) = Some v -> truthyValue v = true.
Proof.
  rewrite get_normalize; intros E; now apply (outputOf_some _ _ _ _ E).
Qed.

(** A field whose hash method rejects the value is omitted. *)
Lemma normalize_rejected_hash_omitted (this : Normalizer) (raw : RawUserData)
    (k : Key.t) (h : string -> option string) :
  hashMethodOf this k = Some h ->
  (forall v, rawString raw k = Some v -> h v = None) ->
  ~ In k (keys (normalize this raw)).
Proof.
  intros Hk Hrej; rewrite In_keys_get, get_normalize.
  assert (Hout : outputOf this raw k = hashed (rawString raw k) h).
  { destruct k; simpl in *; try destruct (hashAddressFields this);
      first [discriminate Hk | now injection Hk as <-]. }
  rewrite Hout; intros Hget; apply Hget; unfold hashed.
  destruct (rawString raw k) as [v|]; [|reflexivity].
  rewrite (Hrej v eq_refl). now destruct (JS.truthy v).
Qed.

Lemma normalize_empty (this : Normalizer) : normalize this emptyRaw = [].
Proof. reflexivity. Qed.

Lemma normalize_invalid_email_phone :
  normalize defaultNormalizer (rawEmailPhone "not-an-email" "123") = [].
Proof. reflexivity. Qed.

(** C3 at a rejected address value: under the default configuration the
    country normalizer rejects "United States", and the output still has the
    [country] key, with the raw value.  The other parts of the claim hold
    (see [normalize_keys_truthyPresent], [normalize_values_truthy],
    [normalize_rejected_hash_omitted], [normalize_empty] and
    [normalize_invalid_email_phone]). *)
Theorem normalize_keeps_rejected_address :
  normalizeCountry "United States" = None
  /\ keys (normalize defaultNormalizer (rawCountry "United States"))
     = [Key.country]
  /\ get Key.country (normalize defaultNormalizer (rawCountry "United States"))
     = Some (VStr "United States")
  /\ normalizeZipCode "   " = None
  /\ keys (normalize defaultNormalizer (rawZipCode "   ")) = [Key.zip_code].
Proof. repeat split. Qed.

(* ================================================================== *)
(** ** Further properties of the normalizers *)

Section PaddingFacts.

Lemma trimStart_pad (l s : string) :
  JS.every JS.isWhiteSpace l = true -> JS.trimStart (l ++ s) = JS.trimStart s.
Proof.
  induction l as [|c l IH]; simpl; [reflexivity|].
  intros H; apply andb_true_iff in H as [Hc Hl]; now rewrite Hc, IH.
Qed.

Lemma trimEnd_blank (r : string) :
  JS.every JS.isWhiteSpace r = true -> JS.trimEnd r = "".
Proof.
  induction r as [|c r IH]; [reflexivity|].
  simpl JS.every; intros H; apply andb_true_iff in H as [Hc Hr].
  now rewrite trimEnd_cons, (IH Hr), Hc.
Qed.

Lemma trimEnd_pad (s r : string) :
  JS.every JS.isWhiteSpace r = true -> JS.trimEnd (s ++ r) = JS.trimEnd s.
Proof.
  intros Hr; induction s as [|c s IH].
  - simpl; now apply trimEnd_blank.
  - change (String c s ++ r) with (String c (s ++ r)).
    now rewrite !trimEnd_cons, IH.
Qed.

Lemma trimStart_blank (r : string) :
  JS.every JS.isWhiteSpace r = true -> JS.trimStart r = "".
Proof.
  induction r as [|c r IH]; simpl; [reflexivity|].
  intros H; apply andb_true_iff in H as [Hc Hr]; now rewrite Hc, IH.
Qed.

Lemma trim_pad_end (s r : string) :
  JS.every JS.isWhiteSpace r = true -> JS.trim (s ++ r) = JS.trim s.
Proof.
  intros Hr; unfold JS.trim; induction s as [|c s IH].
  - simpl. now rewrite (trimStart_blank _ Hr).
  - change (String c s ++ r) with (String c (s ++ r)).
    simpl JS.trimStart. destruct (JS.isWhiteSpace c); [exact IH|].
    change (String c (s ++ r)) with (String c s ++ r).
    now apply trimEnd_pad.
Qed.

Lemma trim_pad (l s r : string) :
  JS.every JS.isWhiteSpace l = true ->
  JS.every JS.isWhiteSpace r = true ->
  JS.trim (l ++ s ++ r) = JS.trim s.
Proof.
  intros Hl Hr. rewrite <- (trim_pad_end s r Hr).
  unfold JS.trim. now rewrite trimStart_pad.
Qed.

Lemma every_ws_lower (s : string) :
  JS.every JS.isWhiteSpace (JS.toLowerCase s) = JS.every JS.isWhiteSpace s.
Proof.
  induction s as [|c s IH]; simpl; [reflexivity|].
  now rewrite isWhiteSpace_lowerChar, IH.
Qed.

Lemma trim_lower_pad (l s r : string) :
  JS.every JS.isWhiteSpace l = true ->
  JS.every JS.isWhiteSpace r = true ->
  JS.trim (JS.toLowerCase (l ++ s ++ r)) = JS.trim (JS.toLowerCase s).
Proof.
  intros Hl Hr. rewrite !toLowerCase_append.
  apply trim_pad; now rewrite every_ws_lower.
Qed.

Lemma isWhiteSpace_stripped (c : ascii) :
  JS.isWhiteSpace c = true -> notDigitOrPlus c = true.
Proof.
  destruct c as [[] [] [] [] [] [] [] []]; vm_compute;
    intros H; first [reflexivity | discriminate H].
Qed.

Lemma isDigit_plain (c : ascii) :
  JS.isDigit c = true ->
  JS.lowerChar c = c /\ JS.isWhiteSpace c = false.
Proof.
  destruct c as [[] [] [] [] [] [] [] []]; vm_compute;
    intros H; first [split; reflexivity | discriminate H].
Qed.

Lemma isLowerHex_plain (c : ascii) :
  isLowerHex c = true ->
  JS.lowerChar c = c /\ JS.isWhiteSpace c = false
  /\ Ascii.eqb c "@" = false /\ isDateSeparator c = false.
Proof.
  destruct c as [[] [] [] [] [] [] [] []]; vm_compute;
    intros H; first [repeat split; reflexivity | discriminate H].
Qed.

Lemma toLowerCase_fixed (p : ascii -> bool) (s : string) :
  (forall c, p c = true -> JS.lowerChar c = c) ->
  JS.every p s = true -> JS.toLowerCase s = s.
Proof.
  intros Hp; induction s as [|c s IH]; simpl; [reflexivity|].
  intros H; apply andb_true_iff in H as [Hc Hs].
  now rewrite (Hp _ Hc), (IH Hs).
Qed.

Lemma trim_fixed_noWhiteSpace (s : string) :
  JS.every (fun c => negb (JS.isWhiteSpace c)) s = true -> JS.trim s = s.
Proof.
  intros H; apply trim_fixed;
    [now apply startsClean_noWhiteSpace | now apply endsClean_noWhiteSpace].
Qed.

(** The seven normalizers that lower-case and trim read their argument only
    through [toLowerCase().trim()]. *)
Lemma reads_trimmed_lower (this : Normalizer) (c : option string)
    (f : FieldKind) (x x' : string) :
  lowersAndTrims f = true ->
  JS.trim (JS.toLowerCase x) = JS.trim (JS.toLowerCase x') ->
  normalizerOf this c f x = normalizerOf this c f x'.
Proof.
  intros Hf H; destruct f; try discriminate Hf; simpl;
    unfold normalizeEmail, normalizeName, normalizeGender, normalizeCity,
      normalizeState, normalizeZipCode, normalizeCountry;
    destruct x as [|a x]; destruct x' as [|a' x']; cbn [JS.truthy negb];
    try reflexivity;
    first [ rewrite <- H; reflexivity | rewrite H; reflexivity ].
Qed.

End PaddingFacts.

Section NormalizedForms.

Lemma name_form (x : string) :
  let y := JS.replaceRuns " " false (JS.trim (JS.toLowerCase x)) in
  JS.toLowerCase y = y /\ JS.trim y = y /\ singleSpaced false y = true.
Proof.
  intros y; unfold y; repeat split.
  - rewrite toLowerCase_replaceRuns. now rewrite lower_trim_lower.
  - apply trim_fixed.
    + apply startsClean_replaceRuns, trim_startsClean.
    + apply endsClean_replaceRuns, trim_endsClean.
  - apply replaceRuns_singleSpaced.
Qed.

Lemma zip_form (x : string) :
  let y := JS.replaceRuns "" false (JS.trim (JS.toLowerCase x)) in
  JS.toLowerCase y = y /\ JS.trim y = y
  /\ JS.every (fun c => negb (JS.isWhiteSpace c)) y = true.
Proof.
  intros y.
  assert (Hclean : JS.every (fun c => negb (JS.isWhiteSpace c)) y = true)
    by (unfold y; rewrite replaceRuns_empty; apply removeAll_every).
  repeat split; [| now apply trim_fixed_noWhiteSpace | exact Hclean].
  unfold y. rewrite toLowerCase_replaceRuns. now rewrite lower_trim_lower.
Qed.

Lemma normalizeEmail_some (x y : string) :
  normalizeEmail x = Some y ->
  y = JS.trim (JS.toLowerCase x)
  /\ JS.includesChar "@" y = true /\ 5 <= String.length y.
Proof.
  unfold normalizeEmail.
  destruct (JS.truthy x); simpl; [|discriminate].
  destruct (negb _ || _) eqn:E; [discriminate|].
  intros [= <-]. apply orb_false_iff in E as [E1 E2].
  apply negb_false_iff in E1; apply Nat.ltb_ge in E2. now repeat split.
Qed.

Lemma normalizeName_some (x y : string) :
  normalizeName x = Some y ->
  y = JS.replaceRuns " " false (JS.trim (JS.toLowerCase x))
  /\ JS.truthy y = true.
Proof.
  unfold normalizeName, JS.replaceWhiteSpaceRuns.
  destruct (JS.truthy x); simpl; [|discriminate].
  destruct (_ =? 0)%nat eqn:E; [discriminate|].
  intros [= <-]; split; [reflexivity | now rewrite truthy_length, E].
Qed.

Lemma normalizeZipCode_some (x y : string) :
  normalizeZipCode x = Some y ->
  y = JS.replaceRuns "" false (JS.trim (JS.toLowerCase x))
  /\ JS.truthy y = true.
Proof.
  unfold normalizeZipCode, JS.replaceWhiteSpaceRuns.
  destruct (JS.truthy x); simpl; [|discriminate].
  destruct (_ =? 0)%nat eqn:E; [discriminate|].
  intros [= <-]; split; [reflexivity | now rewrite truthy_length, E].
Qed.

Lemma normalizeCity_some (x y : string) :
  normalizeCity x = Some y ->
  y = JS.trim (JS.toLowerCase x) /\ JS.truthy y = true.
Proof.
  unfold normalizeCity.
  destruct (JS.truthy x); simpl; [|discriminate].
  destruct (_ =? 0)%nat eqn:E; [discriminate|].
  intros [= <-]; split; [reflexivity | now rewrite truthy_length, E].
Qed.

Lemma normalizeCountry_some (x y : string) :
  normalizeCountry x = Some y ->
  y = JS.trim (JS.toLowerCase x) /\ String.length y = 2.
Proof.
  unfold normalizeCountry.
  destruct (JS.truthy x); simpl; [|discriminate].
  destruct (_ =? 2)%nat eqn:E; simpl; [|discriminate].
  intros [= <-]; split; [reflexivity | now apply Nat.eqb_eq].
Qed.

Lemma normalizeGender_some (x y : string) :
  normalizeGender x = Some y -> y = "m" \/ y = "f".
Proof.
  unfold normalizeGender.
  destruct (JS.truthy x); simpl; [|discriminate].
  destruct (_ || _); [intros [= <-]; now left|].
  destruct (_ || _); [intros [= <-]; now right | discriminate].
Qed.

Lemma normalizeDateOfBirth_some (x y : string) :
  normalizeDateOfBirth x = Some y ->
  y = JS.removeAll isDateSeparator x
  /\ String.length y = 8 /\ JS.every JS.isDigit y = true.
Proof.
  unfold normalizeDateOfBirth.
  destruct (JS.truthy x); simpl; [|discriminate].
  destruct (isEightDigits _) eqn:E; simpl; [|discriminate].
  intros [= <-]. unfold isEightDigits in E.
  apply andb_true_iff in E as [E1 E2]; apply Nat.eqb_eq in E1.
  now repeat split.
Qed.

Lemma normalizePhone_some (this : Normalizer) (c : option string)
    (x y : string) :
  normalizePhone this x c = Some y ->
  10 <= String.length (strippedPhone x)
  /\ (y = "+" ++ nullish c (defaultCountryCode this) ++ strippedPhone x
      \/ y = "+" ++ strippedPhone x).
Proof.
  rewrite normalizePhone_stripped.
  destruct (_ <? 10)%nat eqn:E; [discriminate|].
  apply Nat.ltb_ge in E.
  destruct (_ =? 10)%nat; intros [= <-]; split; auto.
Qed.

End NormalizedForms.

(** X1.  Every normalizer other than the phone one returns, when it
    succeeds, a string that is not empty, that [toLowerCase] leaves
    unchanged and that [trim] leaves unchanged. *)
Theorem normalized_is_canonical (this : Normalizer) (c : option string)
    (f : FieldKind) (x y : string) :
  f <> FPhone ->
  normalizerOf this c f x = Some y ->
  JS.truthy y = true /\ JS.toLowerCase y = y /\ JS.trim y = y.
Proof.
  intros Hf; destruct f; simpl; try congruence; intros H.
  - apply normalizeEmail_some in H as (-> & _ & Hlen).
    rewrite lower_trim_lower, trim_idem.
    repeat split. apply (truthy_of_length _ 5 Hlen); lia.
  - apply normalizeName_some in H as (-> & Ht).
    destruct (name_form x) as (Hl & Htr & _). now repeat split.
  - apply normalizeGender_some in H as [-> | ->]; now repeat split.
  - apply normalizeDateOfBirth_some in H as (_ & Hlen & Hdig).
    repeat split.
    + apply (truthy_of_length _ 8); lia.
    + revert Hdig; apply toLowerCase_fixed.
      intros a Ha; now apply isDigit_plain.
    + apply trim_fixed_noWhiteSpace. revert Hdig; apply every_impl.
      intros a Ha; apply isDigit_plain in Ha as [_ Ha]; now rewrite Ha.
  - apply normalizeCity_some in H as (-> & Ht).
    rewrite lower_trim_lower, trim_idem. now repeat split.
  - apply normalizeCity_some in H as (-> & Ht).
    rewrite lower_trim_lower, trim_idem. now repeat split.
  - apply normalizeZipCode_some in H as (-> & Ht).
    destruct (zip_form x) as (Hl & Htr & _). now repeat split.
  - apply normalizeCountry_some in H as (-> & Hlen).
    rewrite lower_trim_lower, trim_idem.
    repeat split. apply (truthy_of_length _ 2); lia.
Qed.

Lemma normalized_is_canonical_witness :
  FZipCode <> FPhone
  /\ normalizerOf defaultNormalizer None FZipCode " SW1A 1AA" = Some "sw1a1aa"
  /\ JS.trim "sw1a1aa" = "sw1a1aa".
Proof.
  assert (Hf : FZipCode <> FPhone) by discriminate.
  split; [exact Hf | split; [reflexivity|]].
  exact (proj2 (proj2 (normalized_is_canonical defaultNormalizer None
                         FZipCode " SW1A 1AA" "sw1a1aa" Hf eq_refl))).
Defined.

(** X2.  A normalized name has no white space other than single spaces,
    each between two characters that are not white space: runs of blanks,
    tabs and line breaks inside the name have become one space. *)
Theorem normalizeName_single_spaced (x y : string) :
  normalizeName x = Some y ->
  singleSpaced false y = true
  /\ startsClean y = true /\ endsClean y = true.
Proof.
  intros H; apply normalizeName_some in H as (-> & _).
  destruct (name_form x) as (_ & Htr & Hs).
  repeat split; [exact Hs | |]; rewrite <- Htr;
    [apply trim_startsClean | apply trim_endsClean].
Qed.

Lemma normalizeName_single_spaced_witness :
  normalizeName "  Mary   Ann  " = Some "mary ann"
  /\ singleSpaced false "mary ann" = true.
Proof.
  split; [reflexivity|].
  exact (proj1 (normalizeName_single_spaced "  Mary   Ann  " "mary ann"
                  eq_refl)).
Defined.

(** X3.  A normalized zip code holds no white-space character at all. *)
Theorem normalizeZipCode_no_white_space (x y : string) :
  normalizeZipCode x = Some y ->
  JS.every (fun c => negb (JS.isWhiteSpace c)) y = true.
Proof.
  intros H; apply normalizeZipCode_some in H as (-> & _).
  now destruct (zip_form x) as (_ & _ & Hc).
Qed.

Lemma normalizeZipCode_no_white_space_witness :
  normalizeZipCode "K1A 0B1" = Some "k1a0b1"
  /\ JS.every (fun c => negb (JS.isWhiteSpace c)) "k1a0b1" = true.
Proof.
  split; [reflexivity|].
  exact (normalizeZipCode_no_white_space "K1A 0B1" "k1a0b1" eq_refl).
Defined.

(** X4.  [normalizeGender] has two results only, "m" and "f"; so
    [hashGender] has two digests only. *)
Theorem normalizeGender_two_values (x : string) :
  (normalizeGender x = None \/ normalizeGender x = Some "m"
   \/ normalizeGender x = Some "f")
  /\ (hashGender x = None \/ hashGender x = Some (sha256 "m")
      \/ hashGender x = Some (sha256 "f")).
Proof.
  unfold hashGender.
  destruct (normalizeGender x) as [y|] eqn:E; [|split; now left].
  apply normalizeGender_some in E as [-> | ->]; split; auto.
Qed.

Section RejectionFacts.

Lemma append_empty_r (s : string) : s ++ "" = s.
Proof. induction s as [|c s IH]; simpl; [reflexivity | now rewrite IH]. Qed.

Lemma removeAll_all (cls : ascii -> bool) (s : string) :
  JS.every cls s = true -> JS.removeAll cls s = "".
Proof.
  induction s as [|c s IH]; simpl; [reflexivity|].
  intros H; apply andb_true_iff in H as [Hc Hs]; now rewrite Hc, IH.
Qed.

Lemma every_before_removeAll (p cls : ascii -> bool) (s : string) :
  JS.every p (JS.removeAll cls s) = true ->
  JS.every (fun c => p c || cls c) s = true.
Proof.
  induction s as [|c s IH]; simpl; [reflexivity|].
  destruct (cls c) eqn:E; simpl.
  - intros H; now rewrite orb_true_r, IH.
  - intros H; apply andb_true_iff in H as [Hc Hs].
    now rewrite Hc, IH.
Qed.

Lemma dob_charset (x y : string) :
  normalizeDateOfBirth x = Some y ->
  JS.every digitOrSeparator x = true.
Proof.
  intros H; apply normalizeDateOfBirth_some in H as (-> & _ & Hdig).
  now apply every_before_removeAll.
Qed.

Lemma blank_not_date (c : ascii) :
  JS.isWhiteSpace c = true -> digitOrSeparator c = false.
Proof.
  destruct c as [[] [] [] [] [] [] [] []]; vm_compute;
    intros H; first [reflexivity | discriminate H].
Qed.

Lemma strippedPhone_pad (l x r : string) :
  JS.every JS.isWhiteSpace l = true ->
  JS.every JS.isWhiteSpace r = true ->
  strippedPhone (l ++ x ++ r) = strippedPhone x.
Proof.
  intros Hl Hr; unfold strippedPhone.
  rewrite !removeAll_append.
  rewrite (removeAll_all notDigitOrPlus l), (removeAll_all notDigitOrPlus r);
    try (eapply every_impl; [apply isWhiteSpace_stripped | eassumption]).
  now rewrite append_empty_r.
Qed.

End RejectionFacts.

(** X5.  Every one of the nine normalizers rejects an input made of white
    space only (the empty string included). *)
Theorem normalizer_rejects_blank (this : Normalizer) (c : option string)
    (f : FieldKind) (x : string) :
  JS.every JS.isWhiteSpace x = true ->
  normalizerOf this c f x = None.
Proof.
  intros Hx.
  assert (Htl : JS.trim (JS.toLowerCase x) = JS.trim (JS.toLowerCase "")).
  { unfold JS.trim. rewrite trimStart_blank; [reflexivity|].
    now rewrite every_ws_lower. }
  assert (Hlt : forall g, lowersAndTrims g = true ->
                          normalizerOf this c g x = None).
  { intros g Hg. rewrite (reads_trimmed_lower this c g x "" Hg Htl).
    destruct g; try discriminate Hg; reflexivity. }
  destruct f; try (apply Hlt; reflexivity).
  - cbn [normalizerOf]. rewrite normalizePhone_stripped.
    unfold strippedPhone. rewrite (removeAll_all notDigitOrPlus x);
      [reflexivity|].
    revert Hx; apply every_impl, isWhiteSpace_stripped.
  - cbn [normalizerOf]. destruct x as [|a x]; [reflexivity|].
    destruct (normalizeDateOfBirth (String a x)) as [y|] eqn:E;
      [|reflexivity].
    apply dob_charset in E.
    simpl in Hx, E. apply andb_true_iff in Hx as [Ha _].
    rewrite (blank_not_date _ Ha) in E. discriminate E.
Qed.

Lemma normalizer_rejects_blank_witness :
  JS.every JS.isWhiteSpace "   " = true
  /\ normalizerOf defaultNormalizer None FName "   " = None.
Proof.
  split; [reflexivity|].
  exact (normalizer_rejects_blank defaultNormalizer None FName "   " eq_refl).
Defined.

(** X6.  The normalizers of email, name, gender, city, state, zip code and
    country do not see letter case: two inputs with the same lower-case
    form get the same result. *)
Theorem normalizer_ignores_case (this : Normalizer) (c : option string)
    (f : FieldKind) (x x' : string) :
  lowersAndTrims f = true ->
  JS.toLowerCase x = JS.toLowerCase x' ->
  normalizerOf this c f x = normalizerOf this c f x'.
Proof.
  intros Hf H; apply reads_trimmed_lower; [exact Hf | now rewrite H].
Qed.

Lemma normalizer_ignores_case_witness :
  normalizerOf defaultNormalizer None FEmail "John@Example.COM"
  = normalizerOf defaultNormalizer None FEmail "JOHN@example.com".
Proof.
  exact (normalizer_ignores_case defaultNormalizer None FEmail
           "John@Example.COM" "JOHN@example.com" eq_refl eq_refl).
Defined.

(** X7.  Every normalizer but the date-of-birth one ignores white space
    around its input: padding the input on either side with white space
    does not change the result. *)
Theorem normalizer_ignores_padding (this : Normalizer) (c : option string)
    (f : FieldKind) (l x r : string) :
  f <> FDateOfBirth ->
  JS.every JS.isWhiteSpace l = true ->
  JS.every JS.isWhiteSpace r = true ->
  normalizerOf this c f (l ++ x ++ r) = normalizerOf this c f x.
Proof.
  intros Hf Hl Hr.
  destruct f; try congruence;
    try (apply reads_trimmed_lower; [reflexivity | now apply trim_lower_pad]).
  cbn [normalizerOf]. now rewrite !normalizePhone_stripped, strippedPhone_pad.
Qed.

Lemma normalizer_ignores_padding_witness :
  normalizerOf defaultNormalizer None FCity ("  " ++ "Paris" ++ " ")
  = normalizerOf defaultNormalizer None FCity "Paris"
  /\ normalizerOf defaultNormalizer None FCity "Paris" = Some "paris".
Proof.
  split; [|reflexivity].
  refine (normalizer_ignores_padding defaultNormalizer None FCity
            "  " "Paris" " " _ eq_refl eq_refl).
  discriminate.
Defined.

(** X8.  [normalizeDateOfBirth] accepts an input only if each of its
    characters is a decimal digit or one of [-], [/], [.]: it does not trim,
    so a date with a blank before or after it is rejected. *)
Theorem normalizeDateOfBirth_charset (x y : string) :
  normalizeDateOfBirth x = Some y ->
  JS.every digitOrSeparator x = true
  /\ String.length y = 8
  /\ JS.every JS.isDigit y = true.
Proof.
  intros H; split; [now apply (dob_charset x y)|].
  now apply normalizeDateOfBirth_some in H as (_ & Hlen & Hdig).
Qed.

Lemma normalizeDateOfBirth_charset_witness :
  normalizeDateOfBirth "1990/01/15" = Some "19900115"
  /\ JS.every digitOrSeparator "1990/01/15" = true
  /\ normalizeDateOfBirth " 1990/01/15" = None.
Proof.
  split; [reflexivity | split; [|reflexivity]].
  exact (proj1 (normalizeDateOfBirth_charset "1990/01/15" "19900115"
                  eq_refl)).
Defined.

(** X9.  A phone number that [normalizePhone] returns starts with [+] and
    has at least 11 characters; when the country code in effect holds only
    digits and [+] signs, so does the whole result. *)
Theorem normalizePhone_shape (this : Normalizer) (c : option string)
    (x y : string) :
  normalizePhone this x c = Some y ->
  JS.startsWithChar "+" y = true
  /\ 11 <= String.length y
  /\ (JS.every digitOrPlus (nullish c (defaultCountryCode this)) = true ->
      JS.every digitOrPlus y = true).
Proof.
  intros H; apply normalizePhone_some in H as (Hlen & Hy).
  assert (Hd : JS.every digitOrPlus (strippedPhone x) = true).
  { pose proof (strippedPhone_every x) as Hs. revert Hs; apply every_impl.
    intros a; unfold notDigitOrPlus, digitOrPlus.
    now rewrite negb_involutive. }
  destruct Hy as [-> | ->]; repeat split;
    try (rewrite !length_append; simpl String.length; lia).
  - intros Hc. rewrite !every_append, Hc, Hd. reflexivity.
  - intros _. now rewrite every_append, Hd.
Qed.

Lemma normalizePhone_shape_witness :
  normalizePhone defaultNormalizer "555 123 4567" (Some "+44")
  = Some "++445551234567"
  /\ JS.every digitOrPlus "++445551234567" = true.
Proof.
  split; [reflexivity|].
  exact (proj2 (proj2 (normalizePhone_shape defaultNormalizer (Some "+44")
                         "555 123 4567" "++445551234567" eq_refl))
               eq_refl).
Defined.

(** X10.  [normalizePhone] sees only the digits and [+] signs of its input:
    two inputs that differ in other characters only (blanks, brackets,
    hyphens, letters) get the same result. *)
Theorem normalizePhone_ignores_formatting (this : Normalizer)
    (c : option string) (x x' : string) :
  digitsAndPlus x = digitsAndPlus x' ->
  normalizePhone this x c = normalizePhone this x' c.
Proof.
  intros H.
  now rewrite !normalizePhone_stripped, !strippedPhone_kept, H.
Qed.

Lemma normalizePhone_ignores_formatting_witness :
  normalizePhone defaultNormalizer "(555) 123-4567" None
  = normalizePhone defaultNormalizer "555.123.4567 ext" None.
Proof.
  exact (normalizePhone_ignores_formatting defaultNormalizer None
           "(555) 123-4567" "555.123.4567 ext" eq_refl).
Defined.

(** X11.  When more than 10 characters remain after stripping, no country
    code is prepended: the result is [+] and what remains, whatever the
    argument and the configured default. *)
Theorem normalizePhone_long_keeps_digits (this this' : Normalizer)
    (c c' : option string) (x : string) :
  10 < String.length (strippedPhone x) ->
  normalizePhone this x c = Some ("+" ++ strippedPhone x)
  /\ normalizePhone this x c = normalizePhone this' x c'.
Proof.
  intros H.
  assert (E1 : (String.length (strippedPhone x) <? 10)%nat = false)
    by (apply Nat.ltb_ge; lia).
  assert (E2 : (String.length (strippedPhone x) =? 10)%nat = false)
    by (apply Nat.eqb_neq; lia).
  rewrite !normalizePhone_stripped, E1, E2. split; reflexivity.
Qed.

Lemma normalizePhone_long_keeps_digits_witness :
  10 < String.length (strippedPhone "+44 20 7946 0958")
  /\ normalizePhone defaultNormalizer "+44 20 7946 0958" (Some "1")
     = Some "+442079460958".
Proof.
  assert (H : 10 < String.length (strippedPhone "+44 20 7946 0958"))
    by (vm_compute; lia).
  split; [exact H|].
  exact (proj1 (normalizePhone_long_keeps_digits defaultNormalizer
                  defaultNormalizer (Some "1") None "+44 20 7946 0958" H)).
Defined.

(* ================================================================== *)
(** ** Further properties of the hash methods and of the orchestrator *)

Section HashFacts.

Lemma normalized_truthy (this : Normalizer) (c : option string)
    (f : FieldKind) (x y : string) :
  normalizerOf this c f x = Some y -> JS.truthy y = true.
Proof.
  destruct f; cbn [normalizerOf]; intros H.
  - apply normalizeEmail_some in H as (_ & _ & Hlen).
    apply (truthy_of_length _ 5 Hlen); lia.
  - apply normalizePhone_some in H as (_ & [-> | ->]); reflexivity.
  - now apply normalizeName_some in H.
  - apply normalizeGender_some in H as [-> | ->]; reflexivity.
  - apply normalizeDateOfBirth_some in H as (_ & Hlen & _).
    apply (truthy_of_length _ 8); lia.
  - now apply normalizeCity_some in H.
  - now apply normalizeCity_some in H.
  - now apply normalizeZipCode_some in H.
  - apply normalizeCountry_some in H as (_ & Hlen).
    apply (truthy_of_length _ 2); lia.
Qed.

Lemma hashIfTruthy_normalized (this : Normalizer) (c : option string)
    (f : FieldKind) (x : string) :
  hashIfTruthy (normalizerOf this c f x)
  = option_map sha256 (normalizerOf this c f x).
Proof.
  destruct (normalizerOf this c f x) as [y|] eqn:E; [|reflexivity].
  simpl. now rewrite (normalized_truthy _ _ _ _ _ E).
Qed.

Lemma isSha256_sha256 (x : string) : isSha256 (sha256 x) = true.
Proof. unfold isSha256. now rewrite sha256_length, sha256_hex. Qed.

Lemma hashIfTruthy_digest (n : option string) (d : string) :
  hashIfTruthy n = Some d -> isSha256 d = true.
Proof.
  destruct n as [s|]; simpl; [|discriminate].
  destruct (JS.truthy s); [|discriminate].
  intros [= <-]; apply isSha256_sha256.
Qed.

Lemma hashExternalId_digest (x d : string) :
  hashExternalId x = Some d -> isSha256 d = true.
Proof.
  unfold hashExternalId. destruct (JS.truthy x); simpl; [|discriminate].
  intros [= <-]; apply isSha256_sha256.
Qed.

(** A hash method of the orchestrator rejects the empty string and returns
    digests. *)
Lemma hashMethod_facts (this : Normalizer) (k : Key.t)
    (h : string -> option string) :
  hashMethodOf this k = Some h ->
  h "" = None /\ (forall s d, h s = Some d -> isSha256 d = true).
Proof.
  destruct k; simpl; try destruct (hashAddressFields this);
    try discriminate; intros [= <-]; (split; [reflexivity|]); intros s d;
    first [ apply hashExternalId_digest | apply hashIfTruthy_digest ].
Qed.

Lemma outputOf_hashMethod (this : Normalizer) (raw : RawUserData)
    (k : Key.t) (h : string -> option string) :
  hashMethodOf this k = Some h ->
  outputOf this raw k = hashed (rawString raw k) h.
Proof.
  intros Hk; destruct k; simpl in *; try destruct (hashAddressFields this);
    first [discriminate Hk | now injection Hk as <-].
Qed.

Lemma isSha256_truthy (d : string) : isSha256 d = true -> JS.truthy d = true.
Proof.
  unfold isSha256; intros H; apply andb_true_iff in H as [H _].
  apply Nat.eqb_eq in H. apply (truthy_of_length _ 64); lia.
Qed.

Lemma hashed_method (x : option string) (h : string -> option string) :
  h "" = None ->
  (forall s d, h s = Some d -> isSha256 d = true) ->
  hashed x h = match x with
               | Some v => option_map VStr (h v)
               | None => None
               end.
Proof.
  intros Hnil Hdig; unfold hashed.
  destruct x as [v|]; [|reflexivity].
  destruct v as [|a v]; [simpl; now rewrite Hnil|].
  cbn [JS.truthy].
  destruct (h (String a v)) as [d|] eqn:E; [|reflexivity].
  simpl. now rewrite (isSha256_truthy _ (Hdig _ _ E)).
Qed.

Lemma hasher_unfolds (this : Normalizer)
    (f : FieldKind) (x : string) :
  hasherOf this None f x = option_map sha256 (normalizerOf this None f x).
Proof.
  rewrite <- hashIfTruthy_normalized. destruct f; reflexivity.
Qed.

End HashFacts.

(** X12.  Each of the nine hash methods returns the digest of what its
    normalizer returns, and null exactly when the normalizer returns null:
    the test [normalized ? ... : null] never discards a normalized value,
    because no normalizer returns the empty string. *)
Theorem hasher_is_digest_of_normalized (this : Normalizer)
    (c : option string) (f : FieldKind) (x : string) :
  hasherOf this c f x = option_map sha256 (normalizerOf this c f x).
Proof.
  rewrite <- hashIfTruthy_normalized. destruct f; reflexivity.
Qed.

(** X13.  Whatever a hash method returns, for any of the ten fields that
    are hashed, is a well-formed digest: [isSha256] accepts it. *)
Theorem hash_methods_return_digests (this : Normalizer) (c : option string)
    (f : FieldKind) (x d : string) :
  hasherOf this c f x = Some d \/ hashExternalId x = Some d ->
  isSha256 d = true.
Proof.
  intros [H | H]; [|now apply (hashExternalId_digest x)].
  destruct f; cbn [hasherOf] in H; now apply hashIfTruthy_digest in H.
Qed.

Lemma hash_methods_return_digests_witness :
  hasherOf defaultNormalizer None FPhone "555-123-4567"
  = Some (sha256 "+15551234567")
  /\ isSha256 (sha256 "+15551234567") = true.
Proof.
  split; [reflexivity|].
  exact (hash_methods_return_digests defaultNormalizer None FPhone
           "555-123-4567" (sha256 "+15551234567") (or_introl eq_refl)).
Defined.

(** X14.  In the output of [normalize], the value of every field that the
    orchestrator hashes (the seven always-hashed fields, and the four
    address fields when [hashAddressFields] is true) is a string that
    [isSha256] accepts. *)
Theorem normalize_hashed_fields_are_digests (this : Normalizer)
    (raw : RawUserData) (k : Key.t) (h : string -> option string) (v : Value) :
  hashMethodOf this k = Some h ->
  get k (normalize this raw) = Some v ->
  exists d, v = VStr d /\ isSha256 d = true.
Proof.
  intros Hk. destruct (hashMethod_facts _ _ _ Hk) as [Hnil Hdig].
  rewrite get_normalize, (outputOf_hashMethod _ raw _ _ Hk).
  rewrite (hashed_method _ _ Hnil Hdig).
  destruct (rawString raw k) as [s|]; [|discriminate].
  destruct (h s) as [d|] eqn:E; [|discriminate].
  intros [= <-]. exists d; split; [reflexivity | exact (Hdig _ _ E)].
Qed.

Lemma normalize_hashed_fields_are_digests_witness :
  get Key.email (normalize defaultNormalizer (rawEmail "A@b.io"))
  = Some (VStr (sha256 "a@b.io"))
  /\ exists d, VStr (sha256 "a@b.io") = VStr d /\ isSha256 d = true.
Proof.
  split; [reflexivity|].
  exact (normalize_hashed_fields_are_digests defaultNormalizer
           (rawEmail "A@b.io") Key.email hashEmail
           (VStr (sha256 "a@b.io")) eq_refl eq_refl).
Defined.

(** X15.  For every field that [normalize] hashes, the output field is
    what the standalone hash method returns on the raw value, and the field
    is absent when the raw member is absent or the method returns null. *)
Theorem normalize_runs_hash_method (this : Normalizer) (raw : RawUserData)
    (k : Key.t) (h : string -> option string) :
  hashMethodOf this k = Some h ->
  get k (normalize this raw)
  = match rawString raw k with
    | Some v => option_map VStr (h v)
    | None => None
    end.
Proof.
  intros Hk. destruct (hashMethod_facts _ _ _ Hk) as [Hnil Hdig].
  rewrite get_normalize, (outputOf_hashMethod _ raw _ _ Hk).
  now apply hashed_method.
Qed.

Lemma normalize_runs_hash_method_witness :
  get Key.email (normalize defaultNormalizer (rawEmail "A@b.io"))
  = option_map VStr (hashEmail "A@b.io").
Proof.
  exact (normalize_runs_hash_method defaultNormalizer (rawEmail "A@b.io")
           Key.email hashEmail eq_refl).
Defined.

(** X16.  [normalize] copies the six pass-through properties
    ([ip_address], [user_agent], [subscription_id], [lead_id],
    [anonymous_id], [traits]) as they are when they are truthy, and leaves
    them out otherwise (an empty string is left out), whatever the
    configuration. *)
Theorem normalize_passthrough_verbatim (this : Normalizer)
    (raw : RawUserData) (k : Key.t) :
  isPassthrough k = true ->
  get k (normalize this raw)
  = if truthyPresent raw k then rawGet raw k else None.
Proof.
  intros Hk; rewrite get_normalize; unfold truthyPresent.
  destruct k; try discriminate Hk; simpl; unfold copied;
    match goal with
    | |- context [option_map _ ?x] => destruct x as [v|]; simpl
    end; try reflexivity; now destruct (JS.truthy v).
Qed.

Lemma normalize_passthrough_verbatim_witness :
  get Key.ip_address (normalize defaultNormalizer (rawIpAddress "10.0.0.1"))
  = Some (VStr "10.0.0.1").
Proof.
  exact (normalize_passthrough_verbatim defaultNormalizer
           (rawIpAddress "10.0.0.1") Key.ip_address eq_refl).
Defined.

Lemma option_map_VStr_inj (a b : option string) :
  option_map VStr a = option_map VStr b -> a = b.
Proof. destruct a, b; simpl; congruence. Qed.

Lemma option_map_VObj_inj (a b : option (list (string * unknown))) :
  option_map VObj a = option_map VObj b -> a = b.
Proof. destruct a, b; simpl; congruence. Qed.

(** X17.  Each output field depends on the raw member of the same name
    only: two records that agree on a property give the same output for
    that property, whatever their other members are. *)
Theorem normalize_field_local (this : Normalizer) (raw raw' : RawUserData)
    (k : Key.t) :
  rawGet raw k = rawGet raw' k ->
  get k (normalize this raw) = get k (normalize this raw').
Proof.
  intros H; rewrite !get_normalize.
  destruct k; simpl in H;
    first [ apply option_map_VStr_inj in H | apply option_map_VObj_inj in H ];
    simpl; now rewrite H.
Qed.

Lemma normalize_field_local_witness :
  get Key.email (normalize defaultNormalizer (rawEmail "a@b.io"))
  = get Key.email (normalize defaultNormalizer (rawEmailPhone "a@b.io" "123")).
Proof.
  exact (normalize_field_local defaultNormalizer (rawEmail "a@b.io")
           (rawEmailPhone "a@b.io" "123") Key.email eq_refl).
Defined.

(** X18.  [hashAddressFields] changes the four address fields only: every
    other output field is the same under both settings. *)
Theorem hashAddressFields_only_address (code : string) (b b' : bool)
    (raw : RawUserData) (k : Key.t) :
  addressNormalizerOf k = None ->
  get k (normalize (mkNormalizer code b) raw)
  = get k (normalize (mkNormalizer code b') raw).
Proof.
  intros Hk; rewrite !get_normalize.
  destruct k; try discriminate Hk; reflexivity.
Qed.

Lemma hashAddressFields_only_address_witness :
  get Key.email (normalize (mkNormalizer "1" true) rawAllFields)
  = get Key.email (normalize (mkNormalizer "1" false) rawAllFields).
Proof.
  exact (hashAddressFields_only_address "1" true false rawAllFields
           Key.email eq_refl).
Defined.

(** X19.  [defaultCountryCode] changes the [phone] field only: every other
    output field is the same under any two default codes. *)
Theorem defaultCountryCode_only_phone (code code' : string) (b : bool)
    (raw : RawUserData) (k : Key.t) :
  k <> Key.phone ->
  get k (normalize (mkNormalizer code b) raw)
  = get k (normalize (mkNormalizer code' b) raw).
Proof.
  intros Hk; rewrite !get_normalize.
  destruct k; try congruence; reflexivity.
Qed.

Lemma defaultCountryCode_only_phone_witness :
  get Key.email (normalize (mkNormalizer "1" false) rawAllFields)
  = get Key.email (normalize (mkNormalizer "44" false) rawAllFields).
Proof.
  refine (defaultCountryCode_only_phone "1" "44" false rawAllFields
            Key.email _).
  discriminate.
Defined.

(** X20.  With [hashAddressFields] true, each address field of the output
    is the digest of the normalized raw value when the field's normalizer
    accepts it, and is absent when the normalizer rejects it or the raw
    member is absent. *)
Theorem normalize_hashes_address_when_configured (this : Normalizer)
    (raw : RawUserData) (k : Key.t) (n : string -> option string) :
  hashAddressFields this = true ->
  addressNormalizerOf k = Some n ->
  get k (normalize this raw)
  = match rawString raw k with
    | Some v => option_map (fun y => VStr (sha256 y)) (n v)
    | None => None
    end.
Proof.
  intros Hflag Hk; rewrite get_normalize.
  destruct k; try discriminate Hk; injection Hk as <-;
    simpl; rewrite Hflag;
    (rewrite hashed_method;
       [ | reflexivity | intros s d; apply hashIfTruthy_digest ]);
    match goal with
    | |- context [match ?x with Some _ => _ | None => _ end] =>
        destruct x as [v|]; [|reflexivity]
    end.
  - pose proof (hasher_unfolds this FCity v) as E.
    cbn [hasherOf normalizerOf] in E. rewrite E.
    now destruct (normalizeCity v).
  - pose proof (hasher_unfolds this FState v) as E.
    cbn [hasherOf normalizerOf] in E. rewrite E.
    now destruct (normalizeState v).
  - pose proof (hasher_unfolds this FZipCode v) as E.
    cbn [hasherOf normalizerOf] in E. rewrite E.
    now destruct (normalizeZipCode v).
  - pose proof (hasher_unfolds this FCountry v) as E.
    cbn [hasherOf normalizerOf] in E. rewrite E.
    now destruct (normalizeCountry v).
Qed.

Lemma normalize_hashes_address_when_configured_witness :
  get Key.country (normalize (mkNormalizer "1" true) (rawCountry " US"))
  = Some (VStr (sha256 "us"))
  /\ get Key.country (normalize (mkNormalizer "1" true) (rawCountry "USA"))
     = None.
Proof.
  split.
  - exact (normalize_hashes_address_when_configured (mkNormalizer "1" true)
             (rawCountry " US") Key.country normalizeCountry
             eq_refl eq_refl).
  - exact (normalize_hashes_address_when_configured (mkNormalizer "1" true)
             (rawCountry "USA") Key.country normalizeCountry
             eq_refl eq_refl).
Defined.

Section HexFacts.

Lemma byteOfHexPair_all :
  forallb (fun n => match byteOfHexPair (hexPairOf (Z.of_nat n)) with
                    | Some m => (m =? n)%nat
                    | None => false
                    end) (seq 0 256) = true.
Proof. vm_compute. reflexivity. Qed.

Lemma byteOfHexPair_hexPairOf (b : Z) :
  isByte b -> byteOfHexPair (hexPairOf b) = Some (Z.to_nat b).
Proof.
  intros [Hlo Hhi].
  pose proof byteOfHexPair_all as H.
  rewrite forallb_forall in H.
  specialize (H (Z.to_nat b)).
  rewrite Z2Nat.id in H by exact Hlo.
  assert (Hin : In (Z.to_nat b) (seq 0 256)) by (apply in_seq; lia).
  specialize (H Hin).
  destruct (byteOfHexPair (hexPairOf b)) as [m|]; [|discriminate H].
  apply Nat.eqb_eq in H; now subst m.
Qed.

Lemma hexPairOf_length (b : Z) :
  isByte b -> String.length (hexPairOf b) = 2.
Proof.
  intros Hb; apply hexPair_byte in Hb. unfold isHexPair in Hb.
  apply andb_true_iff in Hb as [Hlen _]. now apply Nat.eqb_eq in Hlen.
Qed.

Lemma split_pairs (a a' r r' : string) :
  String.length a = 2 -> String.length a' = 2 ->
  a ++ r = a' ++ r' -> a = a' /\ r = r'.
Proof.
  destruct a as [|c1 [|c2 [|c3 a]]]; try discriminate.
  destruct a' as [|d1 [|d2 [|d3 a']]]; try discriminate.
  intros _ _ H; simpl in H. injection H as -> -> ->. now split.
Qed.

End HexFacts.

(** X21.  The hexadecimal rendering of [sha256] loses nothing: two byte
    arrays with the same rendering are the same array.  The two-character
    padding of each byte is what makes it so. *)
Theorem hexOfBytes_injective (l l' : list Z) :
  Forall isByte l -> Forall isByte l' ->
  hexOfBytes l = hexOfBytes l' -> l = l'.
Proof.
  intros Hl; revert l'; induction Hl as [|b l Hb Hl IH]; intros l' Hl' H.
  - destruct Hl' as [|b' l' Hb' _]; [reflexivity|].
    cbn [hexOfBytes] in H. fold (hexPairOf b') in H.
    pose proof (hexPairOf_length _ Hb') as Hlen.
    destruct (hexPairOf b'); [discriminate Hlen | discriminate H].
  - destruct Hl' as [|b' l' Hb' Hl'].
    + cbn [hexOfBytes] in H. fold (hexPairOf b) in H.
      pose proof (hexPairOf_length _ Hb) as Hlen.
      destruct (hexPairOf b); [discriminate Hlen | discriminate H].
    + cbn [hexOfBytes] in H. fold (hexPairOf b) (hexPairOf b') in H.
      apply split_pairs in H as [Hp Hr]; try now apply hexPairOf_length.
      f_equal; [|now apply IH].
      pose proof (byteOfHexPair_hexPairOf _ Hb) as E.
      rewrite Hp, (byteOfHexPair_hexPairOf _ Hb') in E.
      injection E as E. destruct Hb, Hb'. lia.
Qed.

Lemma hexOfBytes_injective_witness :
  Forall isByte [1; 16]%Z
  /\ hexOfBytes [1; 16]%Z = "0110"
  /\ [1; 16]%Z = [1; 16]%Z.
Proof.
  assert (H : Forall isByte [1; 16]%Z)
    by (repeat constructor; unfold isByte; lia).
  split; [exact H | split; [reflexivity|]].
  exact (hexOfBytes_injective [1; 16]%Z [1; 16]%Z H H eq_refl).
Defined.

Section DigestInputs.

Lemma replaceRuns_noWhiteSpace (rep : string) (b : bool) (s : string) :
  JS.every (fun c => negb (JS.isWhiteSpace c)) s = true ->
  JS.replaceRuns rep b s = s.
Proof.
  revert b; induction s as [|c s IH]; intros b; simpl; [reflexivity|].
  intros H; apply andb_true_iff in H as [Hc Hs].
  apply negb_true_iff in Hc; rewrite Hc. now rewrite IH.
Qed.

Lemma includesChar_none (p : ascii -> bool) (a : ascii) (s : string) :
  (forall c, p c = true -> Ascii.eqb c a = false) ->
  JS.every p s = true -> JS.includesChar a s = false.
Proof.
  intros Hp; induction s as [|c s IH]; simpl; [reflexivity|].
  intros H; apply andb_true_iff in H as [Hc Hs].
  now rewrite (Hp _ Hc), IH.
Qed.

Lemma eqb_length (s t : string) :
  String.length s <> String.length t -> String.eqb s t = false.
Proof.
  intros H; apply String.eqb_neq; intros ->; now apply H.
Qed.

(** A digest is lower-case, without white space, separator or [@]. *)
Lemma digest_plain (v : string) :
  isSha256 v = true ->
  String.length v = 64
  /\ JS.toLowerCase v = v
  /\ JS.every (fun c => negb (JS.isWhiteSpace c)) v = true
  /\ JS.includesChar "@" v = false
  /\ JS.removeAll isDateSeparator v = v.
Proof.
  unfold isSha256; intros H; apply andb_true_iff in H as [Hlen Hhex].
  apply Nat.eqb_eq in Hlen. repeat split; [exact Hlen | | | |].
  - revert Hhex; apply toLowerCase_fixed.
    intros c Hc; now apply isLowerHex_plain.
  - revert Hhex; apply every_impl.
    intros c Hc; apply isLowerHex_plain in Hc as (_ & Hw & _); now rewrite Hw.
  - revert Hhex; apply includesChar_none.
    intros c Hc; now apply isLowerHex_plain in Hc.
  - apply removeAll_fixed. revert Hhex; apply every_impl.
    intros c Hc; apply isLowerHex_plain in Hc as (_ & _ & _ & Hs).
    now rewrite Hs.
Qed.

End DigestInputs.

(** X22.  On an input that is already a digest (64 characters of
    [0-9a-f]) the email, gender, date-of-birth and country normalizers
    return null, so their hash methods do not hash a digest again; the name,
    city, state and zip-code normalizers return the digest unchanged, so
    their hash methods do hash it again, and so does [hashExternalId]. *)
Theorem digest_as_input (v : string) :
  isSha256 v = true ->
  (hashEmail v = None /\ hashGender v = None
   /\ hashDateOfBirth v = None /\ hashCountry v = None)
  /\ (hashName v = Some (sha256 v) /\ hashCity v = Some (sha256 v)
      /\ hashState v = Some (sha256 v) /\ hashZipCode v = Some (sha256 v)
      /\ hashExternalId v = Some (sha256 v)).
Proof.
  intros H. pose proof (isSha256_truthy _ H) as Ht.
  apply digest_plain in H as (Hlen & Hlow & Hws & Hat & Hsep).
  pose proof (trim_fixed_noWhiteSpace _ Hws) as Htrim.
  unfold hashEmail, hashGender, hashDateOfBirth, hashCountry, hashName,
    hashCity, hashState, hashZipCode, hashExternalId,
    normalizeEmail, normalizeGender, normalizeDateOfBirth, normalizeCountry,
    normalizeName, normalizeCity, normalizeState, normalizeZipCode,
    JS.replaceWhiteSpaceRuns, isEightDigits.
  rewrite Ht, Hlow, Htrim, Hat, Hsep, !replaceRuns_noWhiteSpace by exact Hws.
  rewrite Hlen. cbn [negb orb andb Nat.eqb Nat.ltb Nat.leb hashIfTruthy].
  rewrite !eqb_length by (rewrite Hlen; simpl; lia).
  cbn [orb hashIfTruthy]. rewrite Ht. repeat split.
Qed.

Lemma digest_as_input_witness :
  isSha256 (sha256 "a@b.io") = true
  /\ hashEmail (sha256 "a@b.io") = None
  /\ hashName (sha256 "a@b.io") = Some (sha256 (sha256 "a@b.io")).
Proof.
  assert (H : isSha256 (sha256 "a@b.io") = true) by (vm_compute; reflexivity).
  split; [exact H|].
  destruct (digest_as_input (sha256 "a@b.io") H)
    as ((He & _) & (Hn & _)).
  split; [exact He | exact Hn].
Defined.

(** X23.  [hashExternalId] ignores white space around a non-empty id:
    padding the id on either side does not change its digest. *)
Theorem hashExternalId_ignores_padding (l x r : string) :
  JS.truthy x = true ->
  JS.every JS.isWhiteSpace l = true ->
  JS.every JS.isWhiteSpace r = true ->
  hashExternalId (l ++ x ++ r) = hashExternalId x.
Proof.
  intros Hx Hl Hr. unfold hashExternalId.
  rewrite Hx, (trim_pad l x r Hl Hr).
  destruct x as [|a x]; [discriminate Hx|].
  now destruct l.
Qed.

Lemma hashExternalId_ignores_padding_witness :
  hashExternalId (" " ++ "id-7" ++ "  ") = hashExternalId "id-7".
Proof.
  exact (hashExternalId_ignores_padding " " "id-7" "  "
           eq_refl eq_refl eq_refl).
Defined.

(** X24.  Hashing a value that is already normalized gives the digest that
    hashing the raw value gives: when a normalizer turns [x] into [y], the
    field's hash method returns the same digest on [y] as on [x] (for phone,
    with a country code that holds only digits and [+] signs, or none of
    them). *)
Theorem hash_of_normalized_value (this : Normalizer) (c : option string)
    (f : FieldKind) (x y : string) :
  (f = FPhone -> plainCode (nullish c (defaultCountryCode this)) = true) ->
  normalizerOf this c f x = Some y ->
  hasherOf this c f y = hasherOf this c f x
  /\ hasherOf this c f x = Some (sha256 y).
Proof.
  intros Hcode Hx.
  assert (Hy : normalizerOf this c f y = Some y).
  { destruct f; cbn [normalizerOf] in *.
    - now apply (normalizeEmail_idem x).
    - apply (normalizePhone_idem this c x); [now apply Hcode | exact Hx].
    - now apply (normalizeName_idem x).
    - now apply (normalizeGender_idem x).
    - now apply (normalizeDateOfBirth_idem x).
    - now apply (normalizeCity_idem x).
    - now apply (normalizeState_idem x).
    - now apply (normalizeZipCode_idem x).
    - now apply (normalizeCountry_idem x). }
  assert (Hh : forall z, hasherOf this c f z
                         = hashIfTruthy (normalizerOf this c f z))
    by (intros z; destruct f; reflexivity).
  rewrite !Hh, Hx, Hy. simpl.
  now rewrite (normalized_truthy _ _ _ _ _ Hx).
Qed.

Lemma hash_of_normalized_value_witness :
  normalizerOf defaultNormalizer None FEmail " John@Example.com"
  = Some "john@example.com"
  /\ hasherOf defaultNormalizer None FEmail "john@example.com"
     = hasherOf defaultNormalizer None FEmail " John@Example.com".
Proof.
  split; [reflexivity|].
  refine (proj1 (hash_of_normalized_value defaultNormalizer None FEmail
                   " John@Example.com" "john@example.com" _ eq_refl)).
  discriminate.
Defined.
